(** * track: the TrackClient facade (src/track/client.py)

  A shallow embedding of [TrackClient] and of the part of the object graph
  its methods read and write, followed by the properties of
  [set_store], [set_version], [set_project], [set_group] and
  [__getattr__]. *)

From Stdlib Require Import Ascii String.
From stdpp Require Import gmap strings list fin_maps pretty.

Local Open Scope string_scope.

(** ** Python strings: [str.replace] *)

Module PyStr.

(** [s.replace(old, new)]: every non-overlapping occurrence of [old], found
    from left to right, is replaced by [new].  [skip] counts the characters
    of an occurrence already replaced that are still to be passed over.
    An empty [old] matches before every character and at the end. *)
Fixpoint replace_from (old new : string) (skip : nat) (s : string) : string :=
  match s with
  | EmptyString =>
      match skip, old with
      | O, EmptyString => new
      | _, _ => EmptyString
      end
  | String c s' =>
      match skip with
      | S k => replace_from old new k s'
      | O =>
          if String.prefix old s then
            new +:+ match String.length old with
                    | O => String c (replace_from old new 0 s')
                    | S k => replace_from old new k s'
                    end
          else String c (replace_from old new 0 s')
      end
  end.

Definition replace (old new s : string) : string := replace_from old new 0 s.

(** [pat] occurs in [s] as a substring. *)
Definition occurs (pat s : string) : Prop :=
  ∃ a b, s = a +:+ pat +:+ b.

(** [sep.join(pieces)] *)
Fixpoint join (sep : string) (pieces : list string) : string :=
  match pieces with
  | [] => EmptyString
  | [p] => p
  | p :: rest => p +:+ sep +:+ join sep rest
  end.

(** The first character of [s] does not come back later in [s]. *)
Definition head_unique (s : string) : Prop :=
  match s with
  | EmptyString => False
  | String c t => ∀ u v, t ≠ u +:+ String c v
  end.

End PyStr.

(** ** The object graph

  Entities are Python objects: they have an identity (a location of the
  heap) and are shared between the client, the logger and the storage's
  table.  Unique ids are natural numbers; an entity the storage has not
  seen yet has none. *)

Abbreviation loc := positive (only parsing).

Module Trial.
Record t := mk {
  uid : option N;
  project_id : option N;
  group_id : option N;
  version : option string
}.
(** [Trial()] *)
Definition new : t := mk None None None None.
Definition set_uid (u : option N) (x : t) : t :=
  mk u (project_id x) (group_id x) (version x).
Definition set_project_id (p : option N) (x : t) : t :=
  mk (uid x) p (group_id x) (version x).
Definition set_group_id (g : option N) (x : t) : t :=
  mk (uid x) (project_id x) g (version x).
Definition set_version (v : option string) (x : t) : t :=
  mk (uid x) (project_id x) (group_id x) v.
End Trial.

Module Project.
(** [groups] is a set of group ids, kept in its iteration order. *)
Record t := mk {
  uid : option N;
  name : option string;
  tags : option (list string);
  description : option string;
  groups : list N
}.
(** [Project(name=name, tags=tags, description=description)] *)
Definition new (name : option string) (tags : option (list string))
    (description : option string) : t :=
  mk None name tags description [].
Definition set_uid (u : option N) (x : t) : t :=
  mk u (name x) (tags x) (description x) (groups x).
End Project.

Module TrialGroup.
Record t := mk {
  uid : option N;
  name : option string;
  tags : option (list string);
  description : option string;
  trials : list (option N);
  project_id : option N
}.
(** [TrialGroup(name=name, tags=tags, description=description)] *)
Definition new (name : option string) (tags : option (list string))
    (description : option string) : t :=
  mk None name tags description [] None.
Definition set_project_id (p : option N) (x : t) : t :=
  mk (uid x) (name x) (tags x) (description x) (trials x) p.
Definition append_trial (u : option N) (x : t) : t :=
  mk (uid x) (name x) (tags x) (description x) (trials x ++ [u]) (project_id x).
End TrialGroup.

Inductive entity :=
| ETrial (t : Trial.t)
| EProject (p : Project.t)
| EGroup (g : TrialGroup.t).

(** Exceptions.  [BadReference] stands for a reference used at a class its
  target does not have, or with no target at all: the embedding is typed
  and stops there. *)
Inductive exn :=
| RuntimeError (msg : string)
| AssertionError (msg : string)
| AttributeError (item : string)
| KeyError (key : N)
| OSError (msg : string)
| BadReference (l : loc).

Inductive outcome (A : Type) :=
| Returned (a : A)
| Raised (e : exn).
Arguments Returned {A} a.
Arguments Raised {A} e.

Module Storage.
Record t := mk {
  project_names : gmap string N;
  objects : gmap N loc
}.

Definition empty : t := mk ∅ ∅.

(** Modelled from the spec: [track.persistence.storage.Storage] is not among
    the sources.  Assigning a uid is the storage's job: it picks one the
    table does not use. *)
Definition new_uid (st : t) : N := fresh (dom (objects st)).

(** Modelled from the spec: [Storage.insert_project] assigns a uid to the
    project and registers it in the table and in the name index. *)
Definition insert_project (l : loc) (h : gmap loc entity) (st : t)
    : option (gmap loc entity * t) :=
  match h !! l with
  | Some (EProject p) =>
      let u := new_uid st in
      Some (<[l := EProject (Project.set_uid (Some u) p)]> h,
            mk (match Project.name p with
                | Some n => <[n := u]> (project_names st)
                | None => project_names st
                end)
               (<[u := l]> (objects st)))
  | _ => None
  end.

(** Modelled from the spec: [Storage.insert_trial] assigns a uid to the
    trial and registers it in the table. *)
Definition insert_trial (l : loc) (h : gmap loc entity) (st : t)
    : option (gmap loc entity * t) :=
  match h !! l with
  | Some (ETrial x) =>
      let u := new_uid st in
      Some (<[l := ETrial (Trial.set_uid (Some u) x)]> h,
            mk (project_names st) (<[u := l]> (objects st)))
  | _ => None
  end.
End Storage.

(** ** The client *)

Section Client.

(** What an attribute of the logger or of its backend evaluates to. *)
Context {Value : Type}.

Record PyObject := { attrs : gmap string Value }.

(** The backends [build_logger] constructs, and the attributes every
    [Logger] has; the classes are not among the sources. *)
Variables NoLogLogger CMLLogger : PyObject.
Variable Logger_attrs : gmap string Value.

(** Modelled from the spec: [track.logger.Logger] is not among the sources.
    It is built from the trial and a backend; [set_project] and [set_group]
    record the entity they are given. *)
Record Logger := {
  logger_trial : loc;
  backend : PyObject;
  logger_attrs : gmap string Value;
  logger_project : option loc;
  logger_group : option loc
}.

Definition Logger_set_project (p : loc) (lg : Logger) : Logger :=
  {| logger_trial := logger_trial lg; backend := backend lg;
     logger_attrs := logger_attrs lg;
     logger_project := Some p; logger_group := logger_group lg |}.

Definition Logger_set_group (g : loc) (lg : Logger) : Logger :=
  {| logger_trial := logger_trial lg; backend := backend lg;
     logger_attrs := logger_attrs lg;
     logger_project := logger_project lg; logger_group := Some g |}.

(** src/trail/persistence/__init__.py *)
Definition build_logger (backend_name : string) : PyObject :=
  if decide (backend_name = "comet_ml") then CMLLogger else NoLogLogger.

(** The heap, the fields of the client that the methods below use, and
    the current project and trial of [track.structure]. *)
Record State := {
  heap : gmap loc entity;
  project : option loc;
  group : option loc;
  trial : loc;
  logger_backend : string;
  storage_protocol : string;
  logger : Logger;
  data_store : option Storage.t;
  current_project : option loc;
  current_trial : option loc
}.

Definition with_heap (h : gmap loc entity) (s : State) : State :=
  {| heap := h; project := project s; group := group s; trial := trial s;
     logger_backend := logger_backend s; storage_protocol := storage_protocol s;
     logger := logger s; data_store := data_store s;
     current_project := current_project s;
     current_trial := current_trial s |}.
Definition with_project (p : option loc) (s : State) : State :=
  {| heap := heap s; project := p; group := group s; trial := trial s;
     logger_backend := logger_backend s; storage_protocol := storage_protocol s;
     logger := logger s; data_store := data_store s;
     current_project := current_project s;
     current_trial := current_trial s |}.
Definition with_group (g : option loc) (s : State) : State :=
  {| heap := heap s; project := project s; group := g; trial := trial s;
     logger_backend := logger_backend s; storage_protocol := storage_protocol s;
     logger := logger s; data_store := data_store s;
     current_project := current_project s;
     current_trial := current_trial s |}.
Definition with_logger (lg : Logger) (s : State) : State :=
  {| heap := heap s; project := project s; group := group s; trial := trial s;
     logger_backend := logger_backend s; storage_protocol := storage_protocol s;
     logger := lg; data_store := data_store s;
     current_project := current_project s;
     current_trial := current_trial s |}.
Definition with_data_store (d : option Storage.t) (s : State) : State :=
  {| heap := heap s; project := project s; group := group s; trial := trial s;
     logger_backend := logger_backend s; storage_protocol := storage_protocol s;
     logger := logger s; data_store := d;
     current_project := current_project s;
     current_trial := current_trial s |}.
Definition with_current_project (p : option loc) (s : State) : State :=
  {| heap := heap s; project := project s; group := group s; trial := trial s;
     logger_backend := logger_backend s; storage_protocol := storage_protocol s;
     logger := logger s; data_store := data_store s;
     current_project := p;
     current_trial := current_trial s |}.

(** *** State and exceptions *)

Definition M (A : Type) : Type := State → outcome A * State.

Definition ret {A} (a : A) : M A := λ s, (Returned a, s).
Definition raise {A} (e : exn) : M A := λ s, (Raised e, s).
Definition bind {A B} (m : M A) (k : A → M B) : M B :=
  λ s, match m s with
       | (Returned a, s') => k a s'
       | (Raised e, s') => (Raised e, s')
       end.
Definition gets {A} (f : State → A) : M A := λ s, (Returned (f s), s).
Definition modify (f : State → State) : M unit := λ s, (Returned tt, f s).

Notation "x <- m ;; k" := (bind m (λ x, k))
  (at level 100, m at next level, right associativity).
Notation "m ;;; k" := (bind m (λ _, k))
  (at level 100, right associativity).

(** [load_storage] of [track.persistence] reads the store the string names;
    it may build entities and it may fail. *)
Variable load_storage : string → gmap loc entity → outcome Storage.t * gmap loc entity.

(** [default_version_hash] of [track.versioning], and Python's own
    attribute lookup on the client (instance dictionary, class and bases):
    [None] when it finds nothing and hands over to [__getattr__]. *)
Variable default_version_hash : M string.
Variable object_getattribute : State → string → option Value.

(** *** Typed access to the heap *)

Definition read_trial (l : loc) : M Trial.t :=
  λ s, match heap s !! l with
       | Some (ETrial x) => (Returned x, s)
       | _ => (Raised (BadReference l), s)
       end.
Definition read_project (l : loc) : M Project.t :=
  λ s, match heap s !! l with
       | Some (EProject x) => (Returned x, s)
       | _ => (Raised (BadReference l), s)
       end.
Definition read_group (l : loc) : M TrialGroup.t :=
  λ s, match heap s !! l with
       | Some (EGroup x) => (Returned x, s)
       | _ => (Raised (BadReference l), s)
       end.
Definition write (l : loc) (e : entity) : M unit :=
  modify (λ s, with_heap (<[l := e]> (heap s)) s).
(** A new object gets a location the heap does not use. *)
Definition alloc (e : entity) : M loc :=
  λ s, let l := fresh (dom (heap s)) in
       (Returned l, with_heap (<[l := e]> (heap s)) s).

Definition update_trial (l : loc) (f : Trial.t → Trial.t) : M unit :=
  x <- read_trial l ;; write l (ETrial (f x)).
Definition update_group (l : loc) (f : TrialGroup.t → TrialGroup.t) : M unit :=
  x <- read_group l ;; write l (EGroup (f x)).

(** [self.data_store.<attribute>]: [None] has no attributes. *)
Definition the_data_store (attribute : string) : M Storage.t :=
  d <- gets data_store ;;
  match d with
  | Some st => ret st
  | None => raise (AttributeError attribute)
  end.

(** [self.data_store.<attribute>(entity)], the entity being at [l]. *)
Definition lift_storage (l : loc)
    (op : loc → gmap loc entity → Storage.t → option (gmap loc entity * Storage.t))
    (attribute : string) : M unit :=
  st <- the_data_store attribute ;;
  h <- gets heap ;;
  match op l h st with
  | Some (h', st') => modify (λ s, with_data_store (Some st') (with_heap h' s))
  | None => raise (BadReference l)
  end.

(** *** TrackClient *)

Definition placeholder : string := "${project}".

(** The name [set_store] substitutes (client.py, lines 53-54): the one
    passed, else the current project's. *)
Definition store_name (name : option string) : M (option string) :=
  p <- gets project ;;
  match name, p with
  | None, Some lp => x <- read_project lp ;; ret (Project.name x)
  | _, _ => ret name
  end.

(** The string [set_store] hands to [load_storage] (lines 56-57). *)
Definition store_target (store : string) (name : option string) : string :=
  match name with
  | Some n => PyStr.replace placeholder n store
  | None => store
  end.

Definition load (store : string) : M Storage.t :=
  λ s, match load_storage store (heap s) with
       | (Returned st, h) => (Returned st, with_heap h s)
       | (Raised e, h) => (Raised e, with_heap h s)
       end.

(** [self.data_store = load_storage(store)] (line 60) *)
Definition assign_data_store (store : string) : M unit :=
  st <- load store ;;
  modify (with_data_store (Some st)).

(** [TrackClient.set_store] (lines 51-61) *)
Definition set_store (store : string) (name : option string) (force : bool) : M unit :=
  name <- store_name name ;;
  let store := store_target store name in
  d <- gets data_store ;;
  if bool_decide (d = None) || force then assign_data_store store
  else ret tt.

(** [TrackClient.set_version] (lines 63-72); a version function is any
    computation that returns a string. *)
Definition set_version (version : option string) (version_fun : option (M string)) : M unit :=
  let version_fun := default default_version_hash version_fun in
  match version with
  | None =>
      v <- version_fun ;;
      t <- gets trial ;;
      update_trial t (Trial.set_version (Some v))
  | Some v =>
      t <- gets trial ;;
      update_trial t (Trial.set_version (Some v))
  end.

(** [TrackClient.set_project] (lines 74-98) *)
Definition set_project (project : option loc) (name : option string)
    (tags : option (list string)) (description : option string) : M loc :=
  protocol <- gets storage_protocol ;;
  set_store protocol name false ;;;
  project <-
    match name with
    | Some n =>
        st <- the_data_store "project_names" ;;
        match Storage.project_names st !! n with
        | Some project_id =>
            st <- the_data_store "objects" ;;
            match Storage.objects st !! project_id with
            | Some p => ret (Some p)
            | None =>
                raise (AssertionError
                  ("Project (id: " +:+ pretty project_id +:+
                   ") was found in index but missing in the data table"))
            end
        | None => ret project
        end
    | None => ret project
    end ;;
  project <-
    match project with
    | None =>
        match name with
        | None => raise (AssertionError "Project need to have a unique name")
        | Some _ =>
            p <- alloc (EProject (Project.new name tags description)) ;;
            lift_storage p Storage.insert_project "insert_project" ;;;
            ret p
        end
    | Some p => ret p
    end ;;
  x <- read_project project ;;
  t <- gets trial ;;
  update_trial t (Trial.set_project_id (Project.uid x)) ;;;
  modify (with_current_project (Some project)) ;;;
  modify (with_project (Some project)) ;;;
  modify (λ s, with_logger (Logger_set_project project (logger s)) s) ;;;
  t <- gets trial ;;
  lift_storage t Storage.insert_trial "insert_trial" ;;;
  ret project.

(** The loop of [set_group] (lines 105-108): the last group of the project
    with the name wins. *)
Fixpoint find_group (name : option string) (gids : list N) (group : option loc)
    : M (option loc) :=
  match gids with
  | [] => ret group
  | gid :: gids =>
      st <- the_data_store "objects" ;;
      g <- match Storage.objects st !! gid with
           | Some g => ret g
           | None => raise (KeyError gid)
           end ;;
      x <- read_group g ;;
      find_group name gids
        (if decide (TrialGroup.name x = name) then Some g else group)
  end.

(** Lines 101-102. *)
Definition the_project : M loc :=
  p <- gets project ;;
  match p with
  | None => raise (RuntimeError "Project needs to be set to define a group")
  | Some p => ret p
  end.

(** [TrackClient.set_group] (lines 100-119) *)
Definition set_group (group : option loc) (name : option string)
    (tags : option (list string)) (description : option string) : M loc :=
  p <- the_project ;;
  x <- read_project p ;;
  group <- find_group name (Project.groups x) group ;;
  group <-
    match group with
    | None => alloc (EGroup (TrialGroup.new name tags description))
    | Some g => ret g
    end ;;
  x <- read_project p ;;
  update_group group (TrialGroup.set_project_id (Project.uid x)) ;;;
  g <- read_group group ;;
  t <- gets trial ;;
  update_trial t (Trial.set_group_id (TrialGroup.uid g)) ;;;
  modify (with_group (Some group)) ;;;
  t <- gets trial ;;
  y <- read_trial t ;;
  update_group group (TrialGroup.append_trial (Trial.uid y)) ;;;
  modify (λ s, with_logger (Logger_set_group group (logger s)) s) ;;;
  ret group.

(** [TrackClient.__getattr__] (lines 137-153) *)
Definition __getattr__ (item : string) : M Value :=
  lg <- gets logger ;;
  match logger_attrs lg !! item with
  | Some v => ret v
  | None =>
      match attrs (backend lg) !! item with
      | Some v => ret v
      | None => raise (AttributeError item)
      end
  end.

(** [client.item]: Python looks the attribute up on the client and calls
    [__getattr__] when that finds nothing. *)
Definition getattr (item : string) : M Value :=
  own <- gets (λ s, object_getattribute s item) ;;
  match own with
  | Some v => ret v
  | None => __getattr__ item
  end.

(** [TrackClient(backend, storage)] (client.py, lines 26-49), in a heap [h];
    the defaults of the two options are ['none'] and
    ['file://${project}.json']. *)
Definition __init__ (backend storage : string) (h : gmap loc entity)
    (cp : option loc) : outcome unit * State :=
  let t := fresh (dom h) in
  (set_version None None ;;;
   modify (with_data_store None))
    {| heap := <[t := ETrial Trial.new]> h;
       project := None; group := None; trial := t;
       logger_backend := backend; storage_protocol := storage;
       logger := {| logger_trial := t; backend := build_logger backend;
                    logger_attrs := Logger_attrs;
                    logger_project := None; logger_group := None |};
       data_store := None; current_project := cp; current_trial := Some t |}.

(** [Storage.commit] of [track.persistence.storage] writes the storage out;
    what it writes lies outside the state, it may fail. *)
Variable commit : Storage.t → option string → gmap loc entity → outcome unit.

(** [TrackClient.save] (lines 179-181) *)
Definition save (file_name_override : option string) : M unit :=
  st <- the_data_store "commit" ;;
  λ s, (commit st file_name_override (heap s), s).

(** *** Reading a state *)

Definition trial_uid (s : State) : option N :=
  match heap s !! trial s with
  | Some (ETrial y) => Trial.uid y
  | _ => None
  end.

Definition trial_version (s : State) : option string :=
  match heap s !! trial s with
  | Some (ETrial y) => Trial.version y
  | _ => None
  end.

(** The trial ids of the group at [g]; an object that does not exist yet has
    none. *)
Definition group_trials (s : State) (g : loc) : list (option N) :=
  match heap s !! g with
  | Some (EGroup x) => TrialGroup.trials x
  | _ => []
  end.

(** [set_group] has what it needs to settle on the group at [g], which
    exists: a project, a loop that ends on [g] (found, or passed in and kept)
    and a trial. *)
Definition settles_on (s : State) (group : option loc) (name : option string)
    (g : loc) : Prop :=
  ∃ lp x gr y,
    project s = Some lp ∧ heap s !! lp = Some (EProject x) ∧
    find_group name (Project.groups x) group s = (Returned (Some g), s) ∧
    heap s !! g = Some (EGroup gr) ∧ heap s !! trial s = Some (ETrial y).

(** The storage has the project at [p] on record under the name [n], and
    the client has a trial. *)
Definition on_record (s : State) (n : string) (p : loc) : Prop :=
  ∃ st project_id x y,
    data_store s = Some st ∧
    Storage.project_names st !! n = Some project_id ∧
    Storage.objects st !! project_id = Some p ∧
    heap s !! p = Some (EProject x) ∧
    heap s !! trial s = Some (ETrial y).

(** [n] calls of [set_group] with the same arguments, one after the other. *)
Fixpoint set_group_times (n : nat) (group : option loc) (name : option string)
    (tags : option (list string)) (description : option string) : M (list loc) :=
  match n with
  | O => ret []
  | S n =>
      g <- set_group group name tags description ;;
      gs <- set_group_times n group name tags description ;;
      ret (g :: gs)
  end.

(** The version [set_version] is documented to stamp: the explicit one, else
    what the version function returns, [default_version_hash] by default. *)
Definition documented_version (version : option string)
    (version_fun : option (M string)) : M string :=
  match version, version_fun with
  | Some v, _ => ret v
  | None, Some f => f
  | None, None => default_version_hash
  end.

End Client.

Arguments PyObject : clear implicits.
Arguments Logger : clear implicits.
Arguments State : clear implicits.
Arguments M : clear implicits.

(** ** Captured output

    [capture_output] works on the two streams of [sys] and on the client's
    [stdout] and [stderr] fields, which no other method above reads.
    Streams are objects, compared by identity. *)

Section Output.

(** The stream objects; [RingOutputDecorator(file=f, n_entries=n)] of
    [track.utils.out] and [options] of [track.configuration] are not among
    the sources. *)
Context {File : Type}.
Variable RingOutputDecorator : loc → N → File.
Variable options : string → N → N.

Record Streams := {
  files : gmap loc File;
  sys_stdout : loc;
  sys_stderr : loc;
  stdout : option loc;
  stderr : option loc
}.

(** [TrackClient.capture_output] (client.py, lines 214-224) *)
Definition capture_output (io : Streams) : Streams :=
  let do_stderr := bool_decide (sys_stderr io ≠ sys_stdout io) in
  let out := fresh (dom (files io)) in
  let io :=
    {| files := <[out := RingOutputDecorator (sys_stdout io)
                          (options "log.stdout_capture" 50)]> (files io);
       sys_stdout := out; sys_stderr := sys_stderr io;
       stdout := Some out; stderr := stderr io |} in
  if do_stderr then
    let err := fresh (dom (files io)) in
    {| files := <[err := RingOutputDecorator (sys_stderr io)
                          (options "log.stderr_capture" 50)]> (files io);
       sys_stdout := sys_stdout io; sys_stderr := err;
       stdout := stdout io; stderr := Some err |}
  else io.

End Output.

Arguments Streams : clear implicits.

(** ** A concrete client

    A store that does not exist yet loads as an empty storage; attribute
    values are the qualified names of what they denote. *)

Module Example.

Definition load_storage (store : string) (h : gmap loc entity)
    : outcome Storage.t * gmap loc entity :=
  (Returned Storage.empty, h).

Definition default_version_hash : M string string := ret "5d41402a".

Definition NoLogLogger : PyObject string :=
  {| attrs := {[ "log_metrics" := "NoLogLogger.log_metrics" ]} |}.

Definition CMLLogger : PyObject string :=
  {| attrs := {[ "log_metrics" := "CMLLogger.log_metrics" ]} |}.

Definition Logger_attrs : gmap string string :=
  {[ "log_arguments" := "Logger.log_arguments" ]}.

Definition defined_on_client : list string :=
  [ "project"; "group"; "trial"; "logger_backend"; "storage_protocol";
    "logger"; "eta"; "code"; "stderr"; "stdout"; "batch_printer";
    "data_store"; "set_store"; "set_version"; "set_project"; "set_group";
    "get_arguments"; "log_code"; "show_eta"; "report"; "save"; "get_device";
    "set_eta_total"; "capture_output"; "finish"; "start" ].

Definition object_getattribute (s : State string) (item : string) : option string :=
  if bool_decide (item ∈ defined_on_client) then Some ("TrackClient." +:+ item)
  else None.

(** [TrackClient()] with the default options. *)
Definition fresh_client : State string :=
  snd (__init__ NoLogLogger CMLLogger Logger_attrs default_version_hash
         "none" "file://${project}.json" ∅ None).

(** ... after [set_project(name='mnist')]. *)
Definition project_client : State string :=
  snd (set_project load_storage None (Some "mnist") None None fresh_client).

(** A client whose project has the group [sweep] on record, as a loaded
    storage would have it. *)
Definition grouped_client : State string :=
  {| heap :=
       {[ 1%positive := ETrial (Trial.mk (Some 2%N) (Some 0%N) None (Some "5d41402a"));
          2%positive := EProject (Project.mk (Some 0%N) (Some "mnist") None None [1%N]);
          3%positive := EGroup (TrialGroup.mk (Some 1%N) (Some "sweep") None None
                                  [Some 7%N] (Some 0%N)) ]};
     project := Some 2%positive;
     group := None;
     trial := 1%positive;
     logger_backend := "none";
     storage_protocol := "file://${project}.json";
     logger := {| logger_trial := 1%positive; backend := NoLogLogger;
                  logger_attrs := Logger_attrs;
                  logger_project := Some 2%positive; logger_group := None |};
     data_store :=
       Some (Storage.mk {[ "mnist" := 0%N ]}
               {[ 0%N := 2%positive; 1%N := 3%positive; 2%N := 1%positive ]});
     current_project := Some 2%positive;
     current_trial := Some 1%positive |}.

End Example.

(** ** More concrete clients *)

Module Example2.

Definition commit (st : Storage.t) (file_name_override : option string)
    (h : gmap loc entity) : outcome unit :=
  Returned ().

(** The name index knows a project the table has lost. *)
Definition dangling_client : State string :=
  with_data_store (Some (Storage.mk {[ "ghost" := 9%N ]} ∅)) Example.project_client.

(** The project lists a group the table does not have. *)
Definition missing_group_client : State string :=
  with_data_store (Some (Storage.mk {[ "mnist" := 0%N ]} {[ 0%N := 2%positive ]}))
    Example.grouped_client.

(** Two groups of the project are named [sweep]. *)
Definition twin_client : State string :=
  {| heap :=
       {[ 1%positive := ETrial (Trial.mk (Some 2%N) (Some 0%N) None (Some "5d41402a"));
          2%positive := EProject (Project.mk (Some 0%N) (Some "mnist") None None
                                    [1%N; 3%N; 4%N]);
          3%positive := EGroup (TrialGroup.mk (Some 1%N) (Some "sweep") None None
                                  [] (Some 0%N));
          4%positive := EGroup (TrialGroup.mk (Some 3%N) (Some "sweep") None None
                                  [] (Some 0%N));
          5%positive := EGroup (TrialGroup.mk (Some 4%N) (Some "ablation") None None
                                  [] (Some 0%N)) ]};
     project := Some 2%positive;
     group := None;
     trial := 1%positive;
     logger_backend := "none";
     storage_protocol := "file://${project}.json";
     logger := {| logger_trial := 1%positive; backend := Example.NoLogLogger;
                  logger_attrs := Example.Logger_attrs;
                  logger_project := Some 2%positive; logger_group := None |};
     data_store :=
       Some (Storage.mk {[ "mnist" := 0%N ]}
               {[ 0%N := 2%positive; 1%N := 3%positive; 2%N := 1%positive;
                  3%N := 4%positive; 4%N := 5%positive ]});
     current_project := Some 2%positive;
     current_trial := Some 1%positive |}.

(** Streams: a file object is the name of what it is. *)
Inductive file :=
  | Tty
  | Ring (inner : loc) (n_entries : N).

Definition options (key : string) (default : N) : N := default.

(** A terminal: [sys.stderr] and [sys.stdout] are two objects. *)
Definition two_streams : Streams file :=
  {| files := {[ 1%positive := Tty; 2%positive := Tty ]};
     sys_stdout := 1%positive; sys_stderr := 2%positive;
     stdout := None; stderr := None |}.

(** A runner that made [sys.stderr] the object [sys.stdout] is. *)
Definition one_stream : Streams file :=
  {| files := {[ 1%positive := Tty ]};
     sys_stdout := 1%positive; sys_stderr := 1%positive;
     stdout := None; stderr := None |}.

End Example2.

(** ** Facts about [str.replace] *)

Module PyStrFacts.
Import PyStr.

(** stdpp keeps [String.append] folded under [simpl]; its two equations. *)
Lemma app_nil_l s : EmptyString +:+ s = s.
Proof. reflexivity. Qed.

Lemma app_cons c s t : String c s +:+ t = String c (s +:+ t).
Proof. reflexivity. Qed.

Lemma app_nil_r s : s +:+ EmptyString = s.
Proof. induction s as [|c s IH]; [done | by rewrite app_cons, IH]. Qed.

Lemma app_assoc a b c : (a +:+ b) +:+ c = a +:+ (b +:+ c).
Proof. induction a as [|x a IH]; [done | by rewrite !app_cons, IH]. Qed.

Lemma prefix_app p s : String.prefix p (p +:+ s) = true.
Proof.
  induction p as [|c p IH]; [by destruct s |].
  rewrite app_cons. simpl. destruct (ascii_dec c c); [done | congruence].
Qed.

Lemma prefix_inv p s : String.prefix p s = true → ∃ r, s = p +:+ r.
Proof.
  revert s; induction p as [|c p IH]; intros s H.
  - by exists s.
  - destruct s as [|d s]; simpl in H; [done |].
    destruct (ascii_dec c d) as [->|]; [| done].
    destruct (IH _ H) as [r ->]. by exists r.
Qed.

(** Passing over the rest of a replaced occurrence. *)
Lemma replace_from_skip old new u s :
  replace_from old new (String.length u) (u +:+ s) = replace_from old new 0 s.
Proof. induction u as [|c u IH]; [done | by rewrite app_cons]. Qed.

(** A string that extends [a] by a non-empty proper part of [pat +:+ r]
    cannot start with [pat] when the head of [pat] is unique in it:
    the only way [pat] is a prefix of [a +:+ pat +:+ r] with [a] non-empty
    is to lie inside [a] followed by the head of [pat]. *)
Lemma prefix_split pat a s :
  String.prefix pat (a +:+ s) = true →
  (∃ r, a = pat +:+ r) ∨ (∃ u v, pat = a +:+ u ∧ u ≠ EmptyString ∧ s = u +:+ v).
Proof.
  revert a; induction pat as [|c pat IH]; intros a H.
  - left. by exists a.
  - destruct a as [|d a].
    + right. rewrite app_nil_l in H. apply prefix_inv in H as [r ->].
      exists (String c pat), r. done.
    + rewrite app_cons in H. simpl in H.
      destruct (ascii_dec c d) as [->|]; [| done].
      destruct (IH _ H) as [[r ->] | (u & v & -> & Hu & ->)].
      * left. by exists r.
      * right. by exists u, v.
Qed.

Lemma no_prefix_before pat a c a' r :
  head_unique pat → ¬ occurs pat (String c a') → a = String c a' →
  String.prefix pat (a +:+ pat +:+ r) = false.
Proof.
  intros Hhu Hno ->. destruct (String.prefix _ _) eqn:H; [exfalso | done].
  apply prefix_split in H as [[r' Hr] | (u & v & Hp & Hu & Hs)].
  - apply Hno. exists EmptyString, r'. by rewrite app_nil_l.
  - destruct pat as [|x t]; [done |]. simpl in Hhu.
    rewrite app_cons in Hp. injection Hp as -> Ht.
    destruct u as [|y u]; [done |].
    rewrite !app_cons in Hs. injection Hs as <- _.
    by apply (Hhu a' u).
Qed.

Lemma occurs_tail pat c s : ¬ occurs pat (String c s) → ¬ occurs pat s.
Proof. intros H (a & b & ->). apply H. by exists (String c a), b. Qed.

Lemma prefix_occurs pat s : String.prefix pat s = true → occurs pat s.
Proof. intros [r ->]%prefix_inv. by exists EmptyString, r. Qed.

(** No occurrence: the string comes back as it is. *)
Lemma replace_absent old new s :
  old ≠ EmptyString → ¬ occurs old s → replace old new s = s.
Proof.
  intros Hne. unfold replace. induction s as [|c s IH]; intros Hno.
  - simpl. by destruct old.
  - cbn [replace_from]. destruct (String.prefix old (String c s)) eqn:Hp.
    + exfalso. by apply Hno, prefix_occurs.
    + f_equal. apply IH. by eapply occurs_tail.
Qed.

(** The leftmost occurrence is replaced and the scan resumes after it. *)
Lemma replace_first old new a b :
  head_unique old → ¬ occurs old a →
  replace old new (a +:+ old +:+ b) = a +:+ new +:+ replace old new b.
Proof.
  intros Hhu. unfold replace. induction a as [|c a IH]; intros Hno.
  - rewrite !app_nil_l. destruct old as [|x t]; [done |].
    rewrite app_cons. cbn [replace_from].
    rewrite <- app_cons, prefix_app. cbn [String.length].
    by rewrite replace_from_skip.
  - rewrite !app_cons. cbn [replace_from]. rewrite <- app_cons.
    rewrite (no_prefix_before old _ c a b Hhu Hno eq_refl).
    f_equal. apply IH. by eapply occurs_tail.
Qed.

(** Every occurrence is replaced: a string cut at its occurrences of [old]
    comes back with [new] at every cut. *)
Lemma replace_join old new pieces :
  head_unique old → Forall (λ p, ¬ occurs old p) pieces →
  replace old new (join old pieces) = join new pieces.
Proof.
  intros Hhu. induction 1 as [|p rest Hp Hrest IH]; [by destruct old |].
  destruct rest as [|q rest].
  - simpl. apply replace_absent; [by destruct old | done].
  - change (join old (p :: q :: rest)) with (p +:+ old +:+ join old (q :: rest)).
    change (join new (p :: q :: rest)) with (p +:+ new +:+ join new (q :: rest)).
    by rewrite replace_first, IH.
Qed.


Lemma length_app a b :
  String.length (a +:+ b) = (String.length a + String.length b)%nat.
Proof. induction a as [|x a IH]; [done |]. rewrite app_cons. simpl. by rewrite IH. Qed.

Lemma prefix_app_r pat u v :
  String.prefix pat u = true → String.prefix pat (u +:+ v) = true.
Proof.
  intros [r ->]%prefix_inv. rewrite app_assoc. apply prefix_app.
Qed.

Lemma join_cons_char sep c p rest :
  String c (join sep (p :: rest)) = join sep (String c p :: rest).
Proof. by destruct rest. Qed.

Lemma join_head_prefix sep p rest : ∃ r, join sep (p :: rest) = p +:+ r.
Proof.
  destruct rest as [|q rest]; [exists EmptyString; by rewrite app_nil_r |].
  by exists (sep +:+ join sep (q :: rest)).
Qed.

(** Every string can be cut at its occurrences of [old]. *)
Lemma cut_exists old s :
  head_unique old →
  ∃ pieces, pieces ≠ [] ∧ Forall (λ p, ¬ occurs old p) pieces ∧ s = join old pieces.
Proof.
  intros Hhu.
  assert (Hne : ¬ occurs old EmptyString).
  { intros (a & b & H). destruct old as [|c t]; [done |]. by destruct a. }
  assert (∀ n s, (String.length s ≤ n)%nat →
            ∃ pieces, pieces ≠ [] ∧ Forall (λ p, ¬ occurs old p) pieces
                      ∧ s = join old pieces) as Hall; [| by eapply Hall].
  clear s. induction n as [|n IH]; intros s Hlen.
  - destruct s; [| simpl in Hlen; lia]. by exists [EmptyString]; repeat constructor.
  - destruct s as [|c s]; [by exists [EmptyString]; repeat constructor |].
    simpl in Hlen. destruct (String.prefix old (String c s)) eqn:Hp.
    + destruct (prefix_inv _ _ Hp) as [r Hr].
      destruct (IH r) as (pieces & Hpne & Hfree & ->).
      { assert (String.length (String c s) = String.length (old +:+ r)) as Hl
          by (by rewrite Hr).
        rewrite length_app in Hl. simpl in Hl.
        destruct old as [|x t]; [done |]. simpl in Hl. lia. }
      exists (EmptyString :: pieces). split_and!; [done | by constructor |].
      destruct pieces as [|q rest]; [done |]. by rewrite Hr.
    + destruct (IH s) as (pieces & Hpne & Hfree & ->); [lia |].
      destruct pieces as [|p rest]; [done |].
      exists (String c p :: rest). split_and!; [done | | apply join_cons_char].
      inversion Hfree as [|? ? Hfp Hfrest]; subst. constructor; [| done].
      intros (a & b & Hab). destruct a as [|d a].
      * rewrite app_nil_l in Hab.
        destruct (join_head_prefix old p rest) as [r Hr].
        rewrite Hr, <- app_cons, Hab in Hp.
        rewrite app_assoc, prefix_app in Hp. done.
      * rewrite app_cons in Hab. injection Hab as _ ->. apply Hfp. by exists a, b.
Qed.

(** A string whose first character is not among the others. *)
Lemma head_unique_check c t :
  forallb (λ x, negb (Ascii.eqb x c)) (list_ascii_of_string t) = true →
  head_unique (String c t).
Proof.
  simpl. intros H u v ->. revert H. induction u as [|d u IH].
  - rewrite app_nil_l. simpl. by rewrite Ascii.eqb_refl.
  - rewrite app_cons. simpl. intros [_ H]%andb_prop. by apply IH.
Qed.

End PyStrFacts.

(** ** Facts about the client *)

Section ClientFacts.

Context {Value : Type}.

Implicit Types (s : State Value) (l g p : loc) (name : option string).

(** *** Running the monad *)

Lemma bind_returned {A B} (m : M Value A) (k : A → M Value B) s a s1 :
  m s = (Returned a, s1) → bind m k s = k a s1.
Proof. unfold bind. by intros ->. Qed.

Lemma bind_raised {A B} (m : M Value A) (k : A → M Value B) s e s1 :
  m s = (Raised e, s1) → bind m k s = (Raised e, s1).
Proof. unfold bind. by intros ->. Qed.

Lemma bind_inv {A B} (m : M Value A) (k : A → M Value B) s b s' :
  bind m k s = (Returned b, s') →
  ∃ a s1, m s = (Returned a, s1) ∧ k a s1 = (Returned b, s').
Proof.
  unfold bind. destruct (m s) as [[a|e] s1]; [| done]. by exists a, s1.
Qed.

Lemma read_trial_inv l s y s' :
  read_trial l s = (Returned y, s') → s' = s ∧ heap s !! l = Some (ETrial y).
Proof.
  unfold read_trial. destruct (heap s !! l) as [[]|]; naive_solver.
Qed.

Lemma read_project_inv l s x s' :
  read_project l s = (Returned x, s') → s' = s ∧ heap s !! l = Some (EProject x).
Proof.
  unfold read_project. destruct (heap s !! l) as [[]|]; naive_solver.
Qed.

Lemma read_group_inv l s x s' :
  read_group l s = (Returned x, s') → s' = s ∧ heap s !! l = Some (EGroup x).
Proof.
  unfold read_group. destruct (heap s !! l) as [[]|]; naive_solver.
Qed.

Lemma read_trial_run l s y :
  heap s !! l = Some (ETrial y) → read_trial l s = (Returned y, s).
Proof. unfold read_trial. by intros ->. Qed.

Lemma read_project_run l s x :
  heap s !! l = Some (EProject x) → read_project l s = (Returned x, s).
Proof. unfold read_project. by intros ->. Qed.

Lemma read_group_run l s x :
  heap s !! l = Some (EGroup x) → read_group l s = (Returned x, s).
Proof. unfold read_group. by intros ->. Qed.

(** Reading never changes the state, whatever it returns. *)
Lemma read_project_state l s : snd (read_project l s) = s.
Proof. unfold read_project. by destruct (heap s !! l) as [[]|]. Qed.

Lemma store_name_state name s : snd (store_name name s) = s.
Proof.
  unfold store_name, bind, gets. destruct name, (project s); simpl; try done.
  pose proof (read_project_state p s) as H.
  destruct (read_project p s) as [[x|e] s1]; simpl in *; by subst.
Qed.

(** What [store_name] returns: the name passed, else the current project's. *)
Lemma store_name_cases name s :
  match name, project s with
  | Some n, _ => store_name name s = (Returned (Some n), s)
  | None, None => store_name name s = (Returned None, s)
  | None, Some lp =>
      ∀ x, heap s !! lp = Some (EProject x) →
           store_name name s = (Returned (Project.name x), s)
  end.
Proof.
  unfold store_name, bind, gets.
  destruct name, (project s) as [lp|]; simpl; try done.
  intros x Hx. by rewrite (read_project_run _ _ _ Hx).
Qed.

Lemma the_project_inv s lp s' :
  the_project s = (Returned lp, s') → s' = s ∧ project s = Some lp.
Proof.
  unfold the_project, bind, gets, ret, raise.
  destruct (project s); [by intros [= <- <-] | done].
Qed.

Lemma update_group_inv l f s u s' :
  update_group l f s = (Returned u, s') →
  ∃ x, heap s !! l = Some (EGroup x) ∧ s' = with_heap (<[l := EGroup (f x)]> (heap s)) s.
Proof.
  unfold update_group. intros (x & s1 & [-> Hx]%read_group_inv & H)%bind_inv.
  exists x. split; [done |]. unfold write, modify in H. congruence.
Qed.

Lemma update_trial_inv l f s u s' :
  update_trial l f s = (Returned u, s') →
  ∃ y, heap s !! l = Some (ETrial y) ∧ s' = with_heap (<[l := ETrial (f y)]> (heap s)) s.
Proof.
  unfold update_trial. intros (y & s1 & [-> Hy]%read_trial_inv & H)%bind_inv.
  exists y. split; [done |]. unfold write, modify in H. congruence.
Qed.

Lemma update_group_run l f s x :
  heap s !! l = Some (EGroup x) →
  update_group l f s = (Returned (), with_heap (<[l := EGroup (f x)]> (heap s)) s).
Proof. intros H. unfold update_group. by rewrite (bind_returned _ _ _ _ _ (read_group_run _ _ _ H)). Qed.

Lemma update_trial_run l f s y :
  heap s !! l = Some (ETrial y) →
  update_trial l f s = (Returned (), with_heap (<[l := ETrial (f y)]> (heap s)) s).
Proof. intros H. unfold update_trial. by rewrite (bind_returned _ _ _ _ _ (read_trial_run _ _ _ H)). Qed.

Lemma fresh_not_allocated (h : gmap loc entity) : h !! fresh (dom h) = None.
Proof. apply not_elem_of_dom, is_fresh. Qed.

Lemma the_data_store_inv attribute s st s' :
  the_data_store attribute s = (Returned st, s') → s' = s ∧ data_store s = Some st.
Proof.
  unfold the_data_store, bind, gets, ret, raise.
  destruct (data_store s); [by intros [= <- <-] | done].
Qed.

Lemma the_data_store_run attribute s st :
  data_store s = Some st → the_data_store attribute s = (Returned st, s).
Proof. unfold the_data_store, bind, gets. by intros ->. Qed.

Lemma lift_storage_inv l op attribute s u s' :
  lift_storage l op attribute s = (Returned u, s') →
  ∃ st h' st', data_store s = Some st ∧ op l (heap s) st = Some (h', st') ∧
               s' = with_data_store (Some st') (with_heap h' s).
Proof.
  unfold lift_storage.
  intros (st & s0 & [-> Hst]%the_data_store_inv & H)%bind_inv.
  apply bind_inv in H as (h & s0 & [= <- <-] & H).
  destruct (op l (heap s) st) as [[h' st']|] eqn:Hop; [| done].
  injection H as _ <-. by exists st, h', st'.
Qed.

Lemma lift_storage_run l op attribute s st h' st' :
  data_store s = Some st → op l (heap s) st = Some (h', st') →
  lift_storage l op attribute s =
    (Returned (), with_data_store (Some st') (with_heap h' s)).
Proof.
  intros Hst Hop. unfold lift_storage.
  rewrite (bind_returned _ _ _ _ _ (the_data_store_run _ _ _ Hst)).
  unfold bind, gets. by rewrite Hop.
Qed.

(** *** The storage *)

Lemma new_uid_unused st : Storage.objects st !! Storage.new_uid st = None.
Proof. unfold Storage.new_uid. apply not_elem_of_dom. apply is_fresh. Qed.

Lemma insert_trial_inv l (h h' : gmap loc entity) st st' :
  Storage.insert_trial l h st = Some (h', st') →
  ∃ y, h !! l = Some (ETrial y) ∧
       h' = <[l := ETrial (Trial.set_uid (Some (Storage.new_uid st)) y)]> h ∧
       Storage.project_names st' = Storage.project_names st ∧
       Storage.objects st' = <[Storage.new_uid st := l]> (Storage.objects st).
Proof.
  unfold Storage.insert_trial. destruct (h !! l) as [[y| |]|]; try done.
  intros [= <- <-]. by exists y.
Qed.

Lemma insert_project_inv l (h h' : gmap loc entity) st st' :
  Storage.insert_project l h st = Some (h', st') →
  ∃ x, h !! l = Some (EProject x) ∧
       h' = <[l := EProject (Project.set_uid (Some (Storage.new_uid st)) x)]> h ∧
       Storage.project_names st' =
         match Project.name x with
         | Some n => <[n := Storage.new_uid st]> (Storage.project_names st)
         | None => Storage.project_names st
         end ∧
       Storage.objects st' = <[Storage.new_uid st := l]> (Storage.objects st).
Proof.
  unfold Storage.insert_project. destruct (h !! l) as [[|x|]|]; try done.
  intros [= <- <-]. by exists x.
Qed.

(** Registering the trial keeps a project on record. *)
Lemma on_record_insert_trial n p s s' st st' x y a b :
  data_store s = Some st →
  (∃ project_id, Storage.project_names st !! n = Some project_id ∧
                 Storage.objects st !! project_id = Some p) →
  heap s !! p = Some (EProject x) →
  heap s !! trial s = Some (ETrial y) →
  Storage.project_names st' = Storage.project_names st →
  Storage.objects st' = <[Storage.new_uid st := trial s]> (Storage.objects st) →
  data_store s' = Some st' → trial s' = trial s →
  heap s' = <[trial s := ETrial a]> (<[trial s := ETrial b]> (heap s)) →
  on_record s' n p ∧ heap s' !! p = Some (EProject x).
Proof.
  intros Hst (pid & Hn & Ho) Hx Hy Hnames Hobjs Hst' Ht' Hh'.
  assert (trial s ≠ p) as Hne by (intros Heq; rewrite Heq, Hx in Hy; done).
  assert (heap s' !! p = Some (EProject x)) as Hx'
    by (by rewrite Hh', !lookup_insert_ne).
  split; [| done].
  exists st', pid, x, a. split_and!; try done.
  - by rewrite Hnames.
  - rewrite Hobjs, lookup_insert_ne; [done |].
    intros Heq. pose proof (new_uid_unused st) as Hu. rewrite Heq, Ho in Hu. done.
  - by rewrite Ht', Hh', lookup_insert_eq.
Qed.

(** *** set_group *)

(** C3. Without a project, [set_group] raises the [RuntimeError] and leaves
    the whole state, trial, group and project included, as it was. *)
Theorem set_group_without_project group name tags description s :
  project s = None →
  set_group group name tags description s =
    (Raised (RuntimeError "Project needs to be set to define a group"), s).
Proof.
  intros H. unfold set_group, the_project, bind, gets. by rewrite H.
Qed.

(** One turn of the loop. *)
Lemma find_group_cons name gid gids group s :
  find_group name (gid :: gids) group s =
    match data_store s with
    | None => (Raised (AttributeError "objects"), s)
    | Some st =>
        match Storage.objects st !! gid with
        | None => (Raised (KeyError gid), s)
        | Some g =>
            match heap s !! g with
            | Some (EGroup x) =>
                find_group name gids
                  (if decide (TrialGroup.name x = name) then Some g else group) s
            | _ => (Raised (BadReference g), s)
            end
        end
    end.
Proof.
  cbn [find_group]. unfold bind, the_data_store, bind, gets, ret, raise, read_group.
  destruct (data_store s) as [st|]; [| done].
  destruct (Storage.objects st !! gid) as [g|]; [| done].
  by destruct (heap s !! g) as [[]|].
Qed.

(** The loop only reads. *)
Lemma find_group_state name gids group s :
  snd (find_group name gids group s) = s.
Proof.
  revert group. induction gids as [|gid gids IH]; intros group; [done |].
  rewrite find_group_cons.
  destruct (data_store s) as [st|]; [| done].
  destruct (Storage.objects st !! gid) as [g|]; [| done].
  destruct (heap s !! g) as [[]|]; auto.
Qed.

Lemma find_group_inv name gids group s r s' :
  find_group name gids group s = (Returned r, s') → s' = s.
Proof.
  intros H. pose proof (find_group_state name gids group s) as Hs.
  rewrite H in Hs. done.
Qed.

(** The group the loop returns was passed in or sits in the heap. *)
Lemma find_group_allocated name gids group s g :
  find_group name gids group s = (Returned (Some g), s) →
  group = Some g ∨ ∃ x, heap s !! g = Some (EGroup x) ∧ TrialGroup.name x = name.
Proof.
  revert group. induction gids as [|gid gids IH]; intros group.
  - intros [= ->]. by left.
  - rewrite find_group_cons.
    destruct (data_store s) as [st|]; [| done].
    destruct (Storage.objects st !! gid) as [g'|]; [| done].
    destruct (heap s !! g') as [[| |x]|] eqn:Hg'; try done.
    intros [H | H]%IH; [| by right].
    case_decide; [| by left].
    injection H as ->. right. eauto.
Qed.

(** The loop sees the storage's table and the names of the groups only. *)
Lemma find_group_ext name gids group s s' r :
  data_store s' = data_store s →
  (∀ l x, heap s !! l = Some (EGroup x) →
          ∃ x', heap s' !! l = Some (EGroup x') ∧ TrialGroup.name x' = TrialGroup.name x) →
  find_group name gids group s = (Returned r, s) →
  find_group name gids group s' = (Returned r, s').
Proof.
  intros Hd Hh. revert group. induction gids as [|gid gids IH]; intros group.
  - by intros [= ->].
  - rewrite !find_group_cons, Hd.
    destruct (data_store s) as [st|]; [| done].
    destruct (Storage.objects st !! gid) as [g'|]; [| done].
    destruct (heap s !! g') as [[| |x]|] eqn:Hg'; try done.
    destruct (Hh _ _ Hg') as (x' & -> & ->). apply IH.
Qed.

(** What a successful [set_group] did: the group [g] is the one the loop
    ended on, else the one passed in, else a new object; it got the project's
    uid and the trial's uid, the trial got the group's uid. *)
Lemma set_group_inv group name tags description s g s' :
  set_group group name tags description s = (Returned g, s') →
  ∃ lp x found s1 gr y,
    project s = Some lp ∧ heap s !! lp = Some (EProject x) ∧
    find_group name (Project.groups x) group s = (Returned found, s) ∧
    match found with
    | Some g' => g' = g ∧ s1 = s
    | None =>
        g = fresh (dom (heap s)) ∧
        s1 = with_heap (<[g := EGroup (TrialGroup.new name tags description)]> (heap s)) s
    end ∧
    heap s1 !! lp = Some (EProject x) ∧
    heap s1 !! g = Some (EGroup gr) ∧
    heap s1 !! trial s = Some (ETrial y) ∧ g ≠ trial s ∧ g ≠ lp ∧
    s' = with_logger (Logger_set_group g (logger s))
           (with_group (Some g)
              (with_heap
                 (<[g := EGroup (TrialGroup.append_trial (Trial.uid y)
                                   (TrialGroup.set_project_id (Project.uid x) gr))]>
                    (<[trial s := ETrial (Trial.set_group_id (TrialGroup.uid gr) y)]>
                       (<[g := EGroup (TrialGroup.set_project_id (Project.uid x) gr)]>
                          (heap s1))))
                 s1)).
Proof.
  unfold set_group. intros H.
  apply bind_inv in H as (lp & s0 & [-> Hlp]%the_project_inv & H).
  apply bind_inv in H as (x & s0 & [-> Hx]%read_project_inv & H).
  apply bind_inv in H as (found & s0 & Hfound & H).
  pose proof (find_group_inv _ _ _ _ _ _ Hfound) as ->.
  apply bind_inv in H as (g0 & s1 & Hg0 & H).
  apply bind_inv in H as (x' & s0 & [-> Hx']%read_project_inv & H).
  apply bind_inv in H as ([] & s2 & (gr & Hgr & ->)%update_group_inv & H).
  apply bind_inv in H as (gr2 & s0 & [-> Hgr2]%read_group_inv & H).
  apply bind_inv in H as (t & s0 & [= <- <-] & H).
  apply bind_inv in H as ([] & s3 & (y & Hy & ->)%update_trial_inv & H).
  apply bind_inv in H as ([] & s0 & [= <-] & H).
  apply bind_inv in H as (t & s0 & [= <- <-] & H).
  apply bind_inv in H as (y2 & s0 & [-> Hy2]%read_trial_inv & H).
  apply bind_inv in H as ([] & s4 & (gr3 & Hgr3 & ->)%update_group_inv & H).
  apply bind_inv in H as ([] & s0 & [= <-] & H).
  injection H as <- <-.
  simpl in *.
  assert (g0 ≠ trial s1) as Hne.
  { intros Heq. rewrite <- Heq, lookup_insert_eq in Hy. done. }
  assert (g0 ≠ lp) as Hne'.
  { intros Heq. rewrite Heq, Hx' in Hgr. done. }
  rewrite lookup_insert_eq in Hgr2. injection Hgr2 as <-.
  rewrite lookup_insert_ne in Hy by done.
  rewrite lookup_insert_eq in Hy2. injection Hy2 as <-.
  rewrite lookup_insert_ne, lookup_insert_eq in Hgr3 by done. injection Hgr3 as <-.
  assert (trial s1 = trial s ∧ logger s1 = logger s ∧ x' = x ∧
          match found with
          | Some g' => g' = g0 ∧ s1 = s
          | None =>
              g0 = fresh (dom (heap s)) ∧
              s1 = with_heap (<[g0 := EGroup (TrialGroup.new name tags description)]> (heap s)) s
          end) as (Ht & Hl & -> & Hs1).
  { destruct found as [g'|].
    - injection Hg0 as -> ->. rewrite Hx in Hx'. by injection Hx' as ->.
    - unfold alloc in Hg0. injection Hg0 as <- <-. simpl in *.
      rewrite lookup_insert_ne in Hx' by done. rewrite Hx in Hx'.
      by injection Hx' as ->. }
  exists lp, x, found, s1, gr, y. rewrite <- Ht, <- Hl. split_and!; done.
Qed.

(** What a successful [set_group] leaves behind, read off the two states. *)
Lemma set_group_effect grp name tags description s g s' :
  set_group grp name tags description s = (Returned g, s') →
  ∃ lp x y,
    project s = Some lp ∧ heap s !! lp = Some (EProject x) ∧
    heap s !! trial s = Some (ETrial y) ∧
    project s' = Some lp ∧ heap s' !! lp = Some (EProject x) ∧
    data_store s' = data_store s ∧ trial s' = trial s ∧ group s' = Some g ∧
    (∃ y', heap s' !! trial s = Some (ETrial y') ∧ Trial.uid y' = Trial.uid y) ∧
    (∃ gr', heap s' !! g = Some (EGroup gr') ∧
            TrialGroup.project_id gr' = Project.uid x ∧
            TrialGroup.trials gr' = (group_trials s g ++ [Trial.uid y])%list ∧
            (heap s !! g = None → TrialGroup.name gr' = name)) ∧
    (∀ l x0, heap s !! l = Some (EGroup x0) →
             ∃ x', heap s' !! l = Some (EGroup x') ∧
                   TrialGroup.name x' = TrialGroup.name x0) ∧
    (heap s !! g = None ∨ settles_on s grp name g).
Proof.
  intros (lp & x & found & s1 & gr & y & Hlp & Hx & Hfound & Hs1 & Hx1 & Hgr & Hy
          & Hgt & Hgp & ->)%set_group_inv.
  assert (project s1 = Some lp ∧ data_store s1 = data_store s ∧ trial s1 = trial s ∧
          heap s !! trial s = Some (ETrial y) ∧
          group_trials s g = TrialGroup.trials gr ∧
          (heap s !! g = None → TrialGroup.name gr = name) ∧
          (∀ l, l ≠ g → heap s1 !! l = heap s !! l) ∧
          (heap s !! g = None ∨ settles_on s grp name g))
    as (Hp1 & Hd1 & Ht1 & Hy0 & Htr & Hnm & Hframe & Hcase).
  { destruct found as [g'|].
    - destruct Hs1 as [-> ->]. split_and!; try done.
      + unfold group_trials. by rewrite Hgr.
      + by rewrite Hgr.
      + right. by exists lp, x, gr, y.
    - destruct Hs1 as [Hg ->]. simpl in *.
      pose proof (fresh_not_allocated (heap s)) as Hfresh. rewrite <- Hg in Hfresh.
      rewrite lookup_insert_eq in Hgr. injection Hgr as <-.
      rewrite lookup_insert_ne in Hy by done.
      split_and!; try done.
      + unfold group_trials. by rewrite Hfresh.
      + intros l Hl. by rewrite lookup_insert_ne.
      + by left. }
  assert (trial s ≠ lp) as Htp.
  { intros Heq. rewrite Heq, Hx1 in Hy. done. }
  exists lp, x, y. simpl. split_and!; try done.
  - by rewrite !lookup_insert_ne by done.
  - eexists. rewrite lookup_insert_ne, lookup_insert_eq by done. done.
  - eexists. rewrite lookup_insert_eq. split_and!; [done | done | | done].
    simpl. by rewrite Htr.
  - intros l x0 Hl. destruct (decide (l = g)) as [-> | Hne].
    + eexists. rewrite lookup_insert_eq. split; [done |]. simpl.
      destruct Hcase as [Hnone | (_ & _ & gr0 & _ & _ & _ & _ & Hgr0 & _)].
      * rewrite Hnone in Hl. done.
      * assert (heap s1 !! g = heap s !! g) as Heq.
        { destruct found; [by destruct Hs1 as [_ ->] |].
          destruct Hs1 as [Hg _]. pose proof (fresh_not_allocated (heap s)) as Hf.
          rewrite <- Hg, Hgr0 in Hf. done. }
        rewrite Heq, Hl in Hgr. by injection Hgr as ->.
    + exists x0. rewrite lookup_insert_ne by done.
      assert (l ≠ trial s) as Hne2.
      { intros ->. rewrite Hy0 in Hl. done. }
      rewrite lookup_insert_ne, lookup_insert_ne by done.
      rewrite Hframe by done. done.
Qed.

(** Once [set_group] can settle on an existing group, it returns it. *)
Lemma settles_on_run group name tags description s g :
  settles_on s group name g →
  ∃ s', set_group group name tags description s = (Returned g, s').
Proof.
  intros (lp & x & gr & y & Hlp & Hx & Hfound & Hgr & Hy).
  assert (g ≠ trial s) as Hne.
  { intros Heq. rewrite Heq, Hy in Hgr. done. }
  eexists. unfold set_group.
  erewrite bind_returned; [| unfold the_project, bind, gets; by rewrite Hlp].
  erewrite bind_returned; [| by apply read_project_run].
  erewrite bind_returned; [| exact Hfound].
  erewrite bind_returned; [| reflexivity].
  erewrite bind_returned; [| by apply read_project_run].
  erewrite bind_returned; [| by apply update_group_run].
  erewrite bind_returned; [| apply read_group_run; simpl; by rewrite lookup_insert_eq].
  erewrite bind_returned; [| reflexivity].
  erewrite bind_returned;
    [| apply update_trial_run; simpl; by rewrite lookup_insert_ne].
  erewrite bind_returned; [| reflexivity].
  erewrite bind_returned; [| reflexivity].
  erewrite bind_returned; [| apply read_trial_run; simpl; by rewrite lookup_insert_eq].
  erewrite bind_returned;
    [| apply update_group_run; simpl;
       by rewrite lookup_insert_ne, lookup_insert_eq].
  erewrite bind_returned; [| reflexivity].
  reflexivity.
Qed.

(** ... and can do so again. *)
Lemma settles_on_again group name tags description s g s' :
  settles_on s group name g →
  set_group group name tags description s = (Returned g, s') →
  settles_on s' group name g.
Proof.
  intros (lp0 & x0 & gr0 & y0 & Hlp0 & Hx0 & Hfound & Hgr0 & Hy0) H.
  destruct (set_group_effect _ _ _ _ _ _ _ H)
    as (lp & x & y & Hlp & Hx & Hy & Hlp' & Hx' & Hd & Ht & _ & (y' & Hy' & _)
        & (gr' & Hgr' & _) & Hnames & _).
  rewrite Hlp0 in Hlp. injection Hlp as <-.
  rewrite Hx0 in Hx. injection Hx as <-.
  exists lp0, x0, gr', y'. rewrite Ht. split_and!; try done.
  by apply (find_group_ext _ _ _ s).
Qed.

(** A group that did not exist before the call was created by it: the loop
    had found nothing, and neither the project nor the storage hears of
    the new group. *)
Lemma set_group_created grp name tags description s g s' :
  set_group grp name tags description s = (Returned g, s') →
  heap s !! g = None →
  ∃ lp x gr,
    project s = Some lp ∧ heap s !! lp = Some (EProject x) ∧
    find_group name (Project.groups x) grp s = (Returned None, s) ∧
    project s' = Some lp ∧ heap s' !! lp = Some (EProject x) ∧
    data_store s' = data_store s ∧
    heap s' !! g = Some (EGroup gr) ∧
    TrialGroup.name gr = name ∧
    TrialGroup.project_id gr = Project.uid x.
Proof.
  intros H Hnew.
  destruct (set_group_effect _ _ _ _ _ _ _ H)
    as (lp & x & y & Hlp & Hx & Hy & Hlp' & Hx' & Hd & Ht & _ & _
        & (gr' & Hgr' & Hpid & _ & Hname) & _ & _).
  apply set_group_inv in H
    as (lp0 & x0 & found & s1 & gr & y0 & Hlp0 & Hx0 & Hfound & Hs1 & _ & Hgr & _).
  rewrite Hlp in Hlp0. injection Hlp0 as <-.
  rewrite Hx in Hx0. injection Hx0 as <-.
  exists lp, x, gr'. split_and!; auto.
  destruct found as [g'|]; [| done].
  destruct Hs1 as [-> ->]. rewrite Hnew in Hgr. done.
Qed.

(** C9. When [set_group] returns a group that did not exist before the
    call, the loop had found nothing, and the project is afterwards the
    object it was, its set of group ids included; the storage is the same
    too.  The new group carries the project's uid as its [project_id]. *)
Theorem set_group_new_group_not_registered grp name tags description s g s' :
  set_group grp name tags description s = (Returned g, s') →
  heap s !! g = None →
  ∃ lp x gr,
    project s = Some lp ∧ heap s !! lp = Some (EProject x) ∧
    find_group name (Project.groups x) grp s = (Returned None, s) ∧
    project s' = Some lp ∧ heap s' !! lp = Some (EProject x) ∧
    data_store s' = data_store s ∧
    heap s' !! g = Some (EGroup gr) ∧
    TrialGroup.name gr = name ∧
    TrialGroup.project_id gr = Project.uid x.
Proof. apply set_group_created. Qed.

(** A group [set_group] created is not found by the next call: with the
    same name the next call creates another one. *)
Lemma set_group_creates_again name tags description s g1 s1 g2 s2 :
  set_group None name tags description s = (Returned g1, s1) →
  heap s !! g1 = None →
  set_group None name tags description s1 = (Returned g2, s2) →
  g2 ≠ g1 ∧ heap s1 !! g2 = None ∧ group_trials s2 g2 = [trial_uid s]
  ∧ group_trials s2 g1 = [trial_uid s].
Proof.
  intros H1 Hnew H2.
  destruct (set_group_created _ _ _ _ _ _ _ H1 Hnew)
    as (lp & x & gr & Hlp & Hx & Hfound & Hlp1 & Hx1 & Hd1 & Hgr & _).
  destruct (set_group_effect _ _ _ _ _ _ _ H1)
    as (lpa & xa & y & _ & _ & Hy & _ & _ & _ & Ht1 & _ & (y' & Hy' & Huid)
        & (gr1 & Hgr1 & _ & Htr1 & _) & Hnames & _).
  assert (find_group name (Project.groups x) None s1 = (Returned None, s1)) as Hfound1
    by (by apply (find_group_ext _ _ _ s)).
  assert (heap s1 !! g2 = None) as Hnew2.
  { apply set_group_inv in H2
      as (lp0 & x0 & found & s1' & grb & yb & Hlp0 & Hx0 & Hf & Hs1' & _).
    rewrite Hlp1 in Hlp0. injection Hlp0 as <-.
    rewrite Hx1 in Hx0. injection Hx0 as <-.
    rewrite Hfound1 in Hf. injection Hf as <-.
    destruct Hs1' as [-> _]. apply fresh_not_allocated. }
  assert (g2 ≠ g1) as Hne.
  { intros ->. rewrite Hgr in Hnew2. done. }
  destruct (set_group_effect _ _ _ _ _ _ _ H2)
    as (lpc & xc & y2 & _ & _ & Hy2 & _ & _ & _ & _ & _ & _
        & (gr2 & Hgr2 & _ & Htr2 & _) & _ & _).
  assert (trial_uid s = Trial.uid y) as Hu by (unfold trial_uid; by rewrite Hy).
  assert (Trial.uid y2 = Trial.uid y) as Hu2.
  { rewrite Ht1, Hy' in Hy2. injection Hy2 as <-. done. }
  split_and!; [done | done | |].
  - unfold group_trials at 1. rewrite Hgr2, Htr2.
    unfold group_trials. rewrite Hnew2. simpl. by rewrite Hu, Hu2.
  - apply set_group_inv in H2
      as (lpd & xd & found & s1' & grd & yd & _ & _ & Hf & Hs1' & _ & _ & _ & Hgt & _ & ->).
    unfold group_trials. simpl.
    rewrite lookup_insert_ne by done.
    rewrite Ht1. rewrite lookup_insert_ne by (intros Heq; rewrite Heq, Hgr1 in Hy'; done).
    rewrite lookup_insert_ne by done.
    assert (heap s1' !! g1 = heap s1 !! g1) as ->.
    { destruct found as [g'|]; [by destruct Hs1' as [_ ->] |].
      destruct Hs1' as [_ ->]. simpl. by rewrite lookup_insert_ne. }
    rewrite Hgr1, Htr1. unfold group_trials. rewrite Hnew. simpl. by rewrite Hu.
Qed.

(** Calling [set_group] again and again on a group that exists. *)
Lemma set_group_times_settled n grp name tags description g s :
  settles_on s grp name g →
  ∃ sn, set_group_times n grp name tags description s = (Returned (replicate n g), sn)
        ∧ group_trials sn g = (group_trials s g ++ replicate n (trial_uid s))%list.
Proof.
  revert s. induction n as [|n IH]; intros s Hs.
  - exists s. split; [done |]. by rewrite app_nil_r.
  - destruct (settles_on_run _ _ tags description _ _ Hs) as [s1 H1].
    pose proof (settles_on_again _ _ _ _ _ _ _ Hs H1) as Hs1.
    destruct (IH _ Hs1) as (sn & Hn & Htr).
    destruct (set_group_effect _ _ _ _ _ _ _ H1)
      as (lpa & xa & y & _ & _ & Hy & _ & _ & _ & Ht1 & _ & (y' & Hy' & Huid)
          & (gr1 & Hgr1 & _ & Htr1 & _) & _ & _).
    exists sn. split.
    + cbn [set_group_times]. rewrite (bind_returned _ _ _ _ _ H1).
      by rewrite (bind_returned _ _ _ _ _ Hn).
    + rewrite Htr. unfold group_trials at 1. rewrite Hgr1, Htr1.
      assert (trial_uid s1 = trial_uid s) as ->.
      { unfold trial_uid. by rewrite Ht1, Hy', Hy. }
      assert (trial_uid s = Trial.uid y) as <- by (unfold trial_uid; by rewrite Hy).
      by rewrite <- app_assoc.
Qed.

(** C10. A successful [set_group] appends the trial's uid to the trial list
    of the group it returns, found or new; and when that group existed
    before the call, [n] calls return it [n] times and leave [n] more
    entries of the trial's uid in its list. *)
Theorem set_group_appends_trial grp name tags description s g s1 :
  set_group grp name tags description s = (Returned g, s1) →
  group_trials s1 g = (group_trials s g ++ [trial_uid s])%list
  ∧ ∀ n, is_Some (heap s !! g) →
         ∃ sn, set_group_times n grp name tags description s
                 = (Returned (replicate n g), sn)
               ∧ group_trials sn g
                 = (group_trials s g ++ replicate n (trial_uid s))%list.
Proof.
  intros H.
  destruct (set_group_effect _ _ _ _ _ _ _ H)
    as (lpa & xa & y & _ & _ & Hy & _ & _ & _ & _ & _ & _
        & (gr1 & Hgr1 & _ & Htr1 & _) & _ & Hcase).
  split.
  - unfold group_trials at 1, trial_uid. by rewrite Hgr1, Htr1, Hy.
  - intros n [e He]. destruct Hcase as [Hnone | Hs]; [by rewrite Hnone in He |].
    by apply set_group_times_settled.
Qed.

(** *** set_store and set_project *)

Lemma placeholder_head_unique : PyStr.head_unique placeholder.
Proof. by apply PyStrFacts.head_unique_check. Qed.

Section Store.

Variable load_storage : string → gmap loc entity → outcome Storage.t * gmap loc entity.

Lemma assign_data_store_run target s :
  assign_data_store load_storage target s =
    match load_storage target (heap s) with
    | (Returned st, h) => (Returned (), with_data_store (Some st) (with_heap h s))
    | (Raised e, h) => (Raised e, with_heap h s)
    end.
Proof.
  unfold assign_data_store, bind, load, modify.
  by destruct (load_storage _ _) as [[st|e] h].
Qed.

Lemma set_store_run store name force s avail :
  store_name name s = (Returned avail, s) →
  set_store load_storage store name force s =
    if bool_decide (data_store s = None) || force
    then assign_data_store load_storage (store_target store avail) s
    else (Returned (), s).
Proof.
  intros H. unfold set_store. rewrite (bind_returned _ _ _ _ _ H).
  unfold bind, gets. by destruct (bool_decide (data_store s = None) || force).
Qed.

(** C6. Whenever [set_store] loads a storage, the string it hands to
    [load_storage] is [store] with the available name (the one passed, else
    the current project's) put in place of the placeholder; every occurrence
    of the placeholder is replaced ([store] can be cut at its occurrences,
    and however it is cut it comes back joined by the name), and with no
    name available [store] is handed over as it is. *)
Theorem set_store_replaces_placeholder store name force s avail :
  data_store s = None ∨ force = true →
  store_name name s = (Returned avail, s) →
  set_store load_storage store name force s =
    assign_data_store load_storage (store_target store avail) s
  ∧ (∃ pieces,
       Forall (λ piece, ¬ PyStr.occurs placeholder piece) pieces ∧
       store = PyStr.join placeholder pieces)
  ∧ (∀ n pieces,
       avail = Some n →
       Forall (λ piece, ¬ PyStr.occurs placeholder piece) pieces →
       store = PyStr.join placeholder pieces →
       store_target store avail = PyStr.join n pieces)
  ∧ (avail = None → store_target store avail = store).
Proof.
  intros Hgate Hname. split_and!.
  - rewrite (set_store_run _ _ _ _ _ Hname).
    destruct Hgate as [-> | ->]; [done |]. by rewrite orb_true_r.
  - destruct (PyStrFacts.cut_exists placeholder store placeholder_head_unique)
      as (pieces & _ & Hfree & Hcut).
    by exists pieces.
  - intros n pieces -> Hpieces ->. simpl.
    apply PyStrFacts.replace_join; [apply placeholder_head_unique | done].
  - by intros ->.
Qed.

(** C8. With a storage already set and [force] left at [False], [set_store]
    changes nothing; the storage can only be another one afterwards when
    [force] is true, and with [force] true it is the one [load_storage]
    returns. *)
Theorem set_store_keeps_data_store store name s st :
  data_store s = Some st →
  snd (set_store load_storage store name false s) = s
  ∧ (∀ force,
       data_store (snd (set_store load_storage store name force s)) ≠ Some st →
       force = true)
  ∧ (∀ avail st' h,
       store_name name s = (Returned avail, s) →
       load_storage (store_target store avail) (heap s) = (Returned st', h) →
       data_store (snd (set_store load_storage store name true s)) = Some st').
Proof.
  intros Hst.
  assert (Hkeep : snd (set_store load_storage store name false s) = s).
  { unfold set_store, bind. pose proof (store_name_state name s) as H.
    destruct (store_name name s) as [[avail|e] s1]; simpl in *; subst s1; [| done].
    unfold gets. rewrite Hst. done. }
  split_and!; [done | |].
  - intros [] H; [done |]. rewrite Hkeep in H. done.
  - intros avail st' h Hname Hload.
    rewrite (set_store_run _ _ _ _ _ Hname), orb_true_r.
    by rewrite assign_data_store_run, Hload.
Qed.

(** [set_store] leaves the trial where it is and ends with a storage. *)
Lemma set_store_returned store name force s u s' :
  set_store load_storage store name force s = (Returned u, s') →
  trial s' = trial s ∧ is_Some (data_store s').
Proof.
  unfold set_store. intros (avail & s0 & Hn & H)%bind_inv.
  pose proof (store_name_state name s) as Hs. rewrite Hn in Hs. simpl in Hs. subst s0.
  apply bind_inv in H as (d & s0 & [= <- <-] & H).
  destruct (bool_decide (data_store s = None)) eqn:Hd; simpl in H.
  - rewrite assign_data_store_run in H.
    destruct (load_storage _ _) as [[st|e] h]; [| done].
    simplify_eq. split; [done | by eexists].
  - destruct force.
    + rewrite assign_data_store_run in H.
      destruct (load_storage _ _) as [[st|e] h]; [| done].
      simplify_eq. split; [done | by eexists].
    + unfold ret in H. simplify_eq. split; [done |].
      apply bool_decide_eq_false in Hd. by apply not_eq_None_Some.
Qed.

(** [set_store] touches the heap and the storage only. *)
Lemma set_store_project store name force s :
  project (snd (set_store load_storage store name force s)) = project s.
Proof.
  unfold set_store, bind. pose proof (store_name_state name s) as H.
  destruct (store_name name s) as [[avail|e] s1]; simpl in *; subst s1; [| done].
  unfold gets. destruct (_ || _); [| done].
  rewrite assign_data_store_run. by destruct (load_storage _ _) as [[st|e] h].
Qed.

(** C5. [set_project] with neither a name nor a project fails: once
    [set_store] is through, it raises the [AssertionError] in the state
    [set_store] left, so no project is created or inserted and the client's
    project is the one it had. *)
Theorem set_project_needs_name tags description s :
  set_project load_storage None None tags description s =
    match set_store load_storage (storage_protocol s) None false s with
    | (Returned _, s1) =>
        (Raised (AssertionError "Project need to have a unique name"), s1)
    | (Raised e, s1) => (Raised e, s1)
    end
  ∧ ∃ e s', set_project load_storage None None tags description s = (Raised e, s')
            ∧ s' = snd (set_store load_storage (storage_protocol s) None false s)
            ∧ project s' = project s.
Proof.
  assert (set_project load_storage None None tags description s =
    match set_store load_storage (storage_protocol s) None false s with
    | (Returned _, s1) =>
        (Raised (AssertionError "Project need to have a unique name"), s1)
    | (Raised e, s1) => (Raised e, s1)
    end) as Heq.
  { unfold set_project, bind, gets.
    by destruct (set_store _ _ _ _ _) as [[[]|e] s1]. }
  split; [done |]. rewrite Heq.
  pose proof (set_store_project (storage_protocol s) None false s) as Hp.
  destruct (set_store _ _ _ _ _) as [[[]|e] s1]; simpl in Hp; eauto.
Qed.

(** After [set_project(name=n)] the storage has the project it returned on
    record under [n]. *)
Lemma set_project_records n tags description s p s1 :
  set_project load_storage None (Some n) tags description s = (Returned p, s1) →
  on_record s1 n p ∧ project s1 = Some p.
Proof.
  unfold set_project. intros H.
  apply bind_inv in H as (protocol & s0 & [= <- <-] & H).
  apply bind_inv in H as ([] & sa & Hstore & H).
  apply bind_inv in H as (found & sb & Hfound & H).
  apply bind_inv in H as (p0 & sc & Hp0 & H).
  apply bind_inv in H as (x & s0 & [-> Hx]%read_project_inv & H).
  apply bind_inv in H as (t & s0 & [= <- <-] & H).
  apply bind_inv in H as ([] & sd & (y & Hy & ->)%update_trial_inv & H).
  apply bind_inv in H as ([] & s0 & [= <-] & H).
  apply bind_inv in H as ([] & s0 & [= <-] & H).
  apply bind_inv in H as ([] & s0 & [= <-] & H).
  apply bind_inv in H as (t & s0 & [= <- <-] & H).
  apply bind_inv in H as ([] & se & (st & h' & st' & Hst & Hins & ->)%lift_storage_inv & H).
  injection H as <- <-. simpl in *.
  apply insert_trial_inv in Hins as (y' & Hy' & -> & Hnames & Hobjs).
  split; [| done].
  eapply on_record_insert_trial; try done.
  apply bind_inv in Hfound as (st0 & s0 & [-> Hst0]%the_data_store_inv & Hfound).
  destruct (Storage.project_names st0 !! n) as [pid|] eqn:Hpid.
  - apply bind_inv in Hfound as (st1 & s0 & [-> Hst1]%the_data_store_inv & Hfound).
    rewrite Hst0 in Hst1. injection Hst1 as <-.
    destruct (Storage.objects st0 !! pid) as [p1|] eqn:Hp1; [| done].
    injection Hfound as <- <-. injection Hp0 as <- <-.
    rewrite Hst0 in Hst. injection Hst as <-. eauto.
  - injection Hfound as <- <-.
    apply bind_inv in Hp0 as (p1 & s0 & [= <- <-] & Hp0).
    apply bind_inv in Hp0
      as ([] & s0 & (st1 & h1 & st1' & Hst1 & Hins & ->)%lift_storage_inv & Hp0).
    injection Hp0 as <- <-. simpl in *.
    rewrite Hst0 in Hst1. injection Hst1 as <-.
    apply insert_project_inv in Hins as (x0 & Hx0 & -> & Hnames0 & Hobjs0).
    rewrite lookup_insert_eq in Hx0. injection Hx0 as <-. simpl in Hnames0.
    injection Hst as <-.
    exists (Storage.new_uid st0).
    by rewrite Hnames0, Hobjs0, !lookup_insert_eq.
Qed.

(** With the project on record under [n], [set_project] with that name
    returns it, whatever else it is passed, and leaves it on record and as
    it was. *)
Lemma set_project_recorded n prj tags description s p :
  on_record s n p →
  ∃ s2, set_project load_storage prj (Some n) tags description s = (Returned p, s2)
        ∧ on_record s2 n p ∧ heap s2 !! p = heap s !! p ∧ project s2 = Some p.
Proof.
  intros (st & pid & x & y & Hst & Hn & Ho & Hx & Hy).
  assert (trial s ≠ p) as Hne by (intros Heq; rewrite Heq, Hx in Hy; done).
  destruct (Storage.insert_trial (trial s)
              (<[trial s := ETrial (Trial.set_project_id (Project.uid x) y)]> (heap s)) st)
    as [[h' st']|] eqn:Hins;
    [| unfold Storage.insert_trial in Hins; by rewrite lookup_insert_eq in Hins].
  eexists. split.
  - unfold set_project.
    erewrite bind_returned; [| reflexivity].
    erewrite bind_returned.
    2:{ erewrite set_store_run; [| by pose proof (store_name_cases (Some n) s)].
        rewrite Hst. reflexivity. }
    erewrite bind_returned.
    2:{ erewrite bind_returned; [| by apply the_data_store_run]. rewrite Hn.
        erewrite bind_returned; [| by apply the_data_store_run]. rewrite Ho.
        reflexivity. }
    erewrite bind_returned; [| reflexivity].
    erewrite bind_returned; [| by apply read_project_run].
    erewrite bind_returned; [| reflexivity].
    erewrite bind_returned; [| by apply update_trial_run].
    erewrite bind_returned; [| reflexivity].
    erewrite bind_returned; [| reflexivity].
    erewrite bind_returned; [| reflexivity].
    erewrite bind_returned; [| reflexivity].
    erewrite bind_returned; [| by eapply lift_storage_run].
    reflexivity.
  - apply insert_trial_inv in Hins as (y' & Hy' & -> & Hnames & Hobjs).
    match goal with
    | |- on_record ?s2 _ _ ∧ _ =>
        destruct (on_record_insert_trial n p s s2 st st' x y _ _ Hst
                    (ex_intro _ pid (conj Hn Ho)) Hx Hy Hnames Hobjs
                    eq_refl eq_refl eq_refl) as [Hrec Hx']
    end.
    split_and!; [exact Hrec | by rewrite Hx', Hx | done].
Qed.

(** C2. When [set_project] with a name has returned a project, calling it
    again with that name returns the same object, whose record, uid
    included, is what it was: the second call finds it through the
    storage's name index. *)
Theorem set_project_idempotent n tags description s p s1 :
  set_project load_storage None (Some n) tags description s = (Returned p, s1) →
  ∀ prj tags' description',
    ∃ s2 x,
      set_project load_storage prj (Some n) tags' description' s1 = (Returned p, s2)
      ∧ heap s1 !! p = Some (EProject x)
      ∧ heap s2 !! p = Some (EProject x)
      ∧ (∃ st project_id, data_store s1 = Some st
                          ∧ Storage.project_names st !! n = Some project_id
                          ∧ Storage.objects st !! project_id = Some p).
Proof.
  intros [Hrec _]%set_project_records prj tags' description'.
  destruct (set_project_recorded n prj tags' description' s1 p Hrec)
    as (s2 & H2 & _ & Hsame & _).
  destruct Hrec as (st & pid & x & y & Hst & Hn & Ho & Hx & _).
  exists s2, x. split_and!; [done | done | by rewrite Hsame | by eauto].
Qed.

End Store.

(** *** set_version *)

Section Version.

Variable default_version_hash : M Value string.

(** C7. [set_version] stamps the trial with the documented version: the
    explicit string when one is given, else the result of the version
    function, [default_version_hash] when none is supplied.  Nothing else of
    the state the version function left changes. *)
Theorem set_version_stamps_trial version version_fun s v s1 y :
  documented_version default_version_hash version version_fun s = (Returned v, s1) →
  heap s1 !! trial s1 = Some (ETrial y) →
  ∃ s', set_version default_version_hash version version_fun s = (Returned (), s')
        ∧ trial_version s' = Some v
        ∧ s' = with_heap (<[trial s1 := ETrial (Trial.set_version (Some v) y)]> (heap s1)) s1.
Proof.
  intros Hv Hy. eexists. split_and!; [| | reflexivity].
  - unfold set_version, documented_version in *.
    destruct version as [v'|].
    + injection Hv as -> ->.
      unfold bind, gets, update_trial, bind. rewrite (read_trial_run _ _ _ Hy). done.
    + assert (default default_version_hash version_fun s = (Returned v, s1)) as Hf
        by (by destruct version_fun).
      rewrite (bind_returned _ _ _ _ _ Hf).
      unfold bind, gets, update_trial, bind. rewrite (read_trial_run _ _ _ Hy). done.
  - unfold trial_version. simpl. by rewrite lookup_insert_eq.
Qed.

End Version.

(** *** Attribute access *)

Section Attributes.

Variable object_getattribute : State Value → string → option Value.

(** C4. An attribute Python does not find on the client is the logger's when
    the logger has it, else the backend's when the backend has it, else the
    access raises [AttributeError]. *)
Theorem getattr_delegates item s :
  object_getattribute s item = None →
  (∀ v, logger_attrs (logger s) !! item = Some v →
        getattr object_getattribute item s = (Returned v, s))
  ∧ (∀ v, logger_attrs (logger s) !! item = None →
          attrs (backend (logger s)) !! item = Some v →
          getattr object_getattribute item s = (Returned v, s))
  ∧ (logger_attrs (logger s) !! item = None →
     attrs (backend (logger s)) !! item = None →
     getattr object_getattribute item s = (Raised (AttributeError item), s)).
Proof.
  intros Hown. unfold getattr, bind, gets, __getattr__. rewrite Hown.
  unfold bind, gets. split_and!.
  - by intros v ->.
  - by intros v -> ->.
  - by intros -> ->.
Qed.

(** An attribute of the client itself never reaches the logger. *)
Lemma getattr_own item s v :
  object_getattribute s item = Some v →
  getattr object_getattribute item s = (Returned v, s).
Proof. intros H. unfold getattr, bind, gets. by rewrite H. Qed.

End Attributes.

End ClientFacts.

(** ** The theorems at the concrete client *)

(** C1. On a client whose project has no group yet, two calls of
    [set_group] with the same name return two different groups: the first
    call's group is not found by the second, and neither trial list grows
    past the one entry its own call appended. *)
Theorem set_group_twice_yields_two_groups :
  ∃ g1 s1 g2 s2,
    set_group None (Some "sweep") None None Example.project_client = (Returned g1, s1)
    ∧ set_group None (Some "sweep") None None s1 = (Returned g2, s2)
    ∧ g1 ≠ g2
    ∧ group_trials s1 g1 = [Some 1%N]
    ∧ group_trials s2 g1 = [Some 1%N]
    ∧ group_trials s2 g2 = [Some 1%N]
    ∧ (∀ x, heap s2 !! 2%positive = Some (EProject x) → Project.groups x = []).
Proof.
  exists 3%positive,
    (snd (set_group None (Some "sweep") None None Example.project_client)),
    4%positive,
    (snd (set_group None (Some "sweep") None None
            (snd (set_group None (Some "sweep") None None Example.project_client)))).
  split_and!; try (vm_compute; reflexivity); [done |].
  intros x. vm_compute. by intros [= <-].
Qed.

Lemma set_project_idempotent_witness :
  set_project Example.load_storage None (Some "mnist") None None Example.fresh_client
    = (Returned 2%positive, Example.project_client)
  ∧ ∃ s2 x,
      set_project Example.load_storage None (Some "mnist") None None
        Example.project_client = (Returned 2%positive, s2)
      ∧ heap Example.project_client !! 2%positive = Some (EProject x)
      ∧ heap s2 !! 2%positive = Some (EProject x)
      ∧ (∃ st project_id, data_store Example.project_client = Some st
                          ∧ Storage.project_names st !! "mnist" = Some project_id
                          ∧ Storage.objects st !! project_id = Some 2%positive).
Proof.
  split; [vm_compute; reflexivity |].
  apply (set_project_idempotent Example.load_storage "mnist" None None
           Example.fresh_client 2%positive Example.project_client).
  vm_compute; reflexivity.
Defined.

Lemma set_group_without_project_witness :
  project Example.fresh_client = None
  ∧ set_group None (Some "sweep") None None Example.fresh_client =
      (Raised (RuntimeError "Project needs to be set to define a group"),
       Example.fresh_client).
Proof.
  split; [vm_compute; reflexivity |].
  apply set_group_without_project. vm_compute; reflexivity.
Defined.

Lemma getattr_delegates_witness :
  Example.object_getattribute Example.fresh_client "log_metrics" = None
  ∧ getattr Example.object_getattribute "log_metrics" Example.fresh_client =
      (Returned "NoLogLogger.log_metrics", Example.fresh_client).
Proof.
  split; [vm_compute; reflexivity |].
  apply (getattr_delegates Example.object_getattribute "log_metrics"
           Example.fresh_client); vm_compute; reflexivity.
Defined.

Lemma set_store_replaces_placeholder_witness :
  data_store Example.fresh_client = None
  ∧ store_name (Some "mnist") Example.fresh_client
      = (Returned (Some "mnist"), Example.fresh_client)
  ∧ set_store Example.load_storage "file://${project}.json" (Some "mnist") false
      Example.fresh_client
      = assign_data_store Example.load_storage "file://mnist.json" Example.fresh_client.
Proof.
  split_and!; [vm_compute; reflexivity | vm_compute; reflexivity |].
  destruct (set_store_replaces_placeholder Example.load_storage
              "file://${project}.json" (Some "mnist") false Example.fresh_client
              (Some "mnist")) as (Hset & _ & Hjoin & _).
  - left. vm_compute; reflexivity.
  - vm_compute; reflexivity.
  - rewrite Hset. f_equal.
Defined.

Lemma set_version_stamps_trial_witness :
  documented_version Example.default_version_hash None None Example.fresh_client
    = (Returned "5d41402a", Example.fresh_client)
  ∧ heap Example.fresh_client !! trial Example.fresh_client
    = Some (ETrial (Trial.mk None None None (Some "5d41402a")))
  ∧ ∃ s', set_version Example.default_version_hash None None Example.fresh_client
            = (Returned (), s')
          ∧ trial_version s' = Some "5d41402a".
Proof.
  split_and!; [vm_compute; reflexivity | vm_compute; reflexivity |].
  destruct (set_version_stamps_trial Example.default_version_hash None None
              Example.fresh_client "5d41402a" Example.fresh_client
              (Trial.mk None None None (Some "5d41402a")))
    as (s' & Hset & Hv & _); [vm_compute; reflexivity | vm_compute; reflexivity |].
  by exists s'.
Defined.

Lemma set_store_keeps_data_store_witness :
  data_store Example.project_client
    = Some (Storage.mk {[ "mnist" := 0%N ]} {[ 0%N := 2%positive; 1%N := 1%positive ]})
  ∧ snd (set_store Example.load_storage "file://other.json" None false
           Example.project_client) = Example.project_client.
Proof.
  split; [vm_compute; reflexivity |].
  eapply set_store_keeps_data_store. vm_compute; reflexivity.
Defined.

Lemma set_group_new_group_not_registered_witness :
  set_group None (Some "sweep") None None Example.project_client
    = (Returned 3%positive,
       snd (set_group None (Some "sweep") None None Example.project_client))
  ∧ heap Example.project_client !! 3%positive = None
  ∧ ∃ lp x gr,
      project Example.project_client = Some lp
      ∧ heap Example.project_client !! lp = Some (EProject x)
      ∧ find_group (Some "sweep") (Project.groups x) None Example.project_client
        = (Returned None, Example.project_client)
      ∧ project (snd (set_group None (Some "sweep") None None Example.project_client))
        = Some lp
      ∧ heap (snd (set_group None (Some "sweep") None None Example.project_client)) !! lp
        = Some (EProject x)
      ∧ data_store (snd (set_group None (Some "sweep") None None Example.project_client))
        = data_store Example.project_client
      ∧ heap (snd (set_group None (Some "sweep") None None Example.project_client))
          !! 3%positive = Some (EGroup gr)
      ∧ TrialGroup.name gr = Some "sweep"
      ∧ TrialGroup.project_id gr = Project.uid x.
Proof.
  split_and!; [vm_compute; reflexivity | vm_compute; reflexivity |].
  apply (set_group_new_group_not_registered None (Some "sweep") None None
           Example.project_client 3%positive); vm_compute; reflexivity.
Defined.

Lemma set_group_appends_trial_witness :
  set_group None (Some "sweep") None None Example.grouped_client
    = (Returned 3%positive,
       snd (set_group None (Some "sweep") None None Example.grouped_client))
  ∧ group_trials
      (snd (set_group None (Some "sweep") None None Example.grouped_client))
      3%positive
    = [Some 7%N; Some 2%N]
  ∧ ∃ s3,
      set_group_times 3 None (Some "sweep") None None Example.grouped_client
        = (Returned [3%positive; 3%positive; 3%positive], s3)
      ∧ group_trials s3 3%positive = [Some 7%N; Some 2%N; Some 2%N; Some 2%N].
Proof.
  destruct (set_group_appends_trial None (Some "sweep") None None
              Example.grouped_client 3%positive
              (snd (set_group None (Some "sweep") None None Example.grouped_client)))
    as (Hone & Hmany); [vm_compute; reflexivity |].
  split_and!; [vm_compute; reflexivity | exact Hone |].
  apply (Hmany 3). vm_compute. by eexists.
Defined.

(** ** Further facts: what the methods do beside the above *)

Section GroupFacts.

Context {Value : Type}.

Implicit Types (s : State Value) (l g p : loc) (name : option string).

(** No group among [gids] is named [name]. *)
Local Abbreviation unmatched s name gids :=
  (∀ st gid l y,
     data_store s = Some st → gid ∈ gids →
     Storage.objects st !! gid = Some l → heap s !! l = Some (EGroup y) →
     TrialGroup.name y ≠ name).

Lemma find_group_unmatched name gids grp s r s' :
  unmatched s name gids →
  find_group name gids grp s = (Returned r, s') → r = grp.
Proof.
  revert grp. induction gids as [|gid gids IH]; intros grp Hno.
  - by intros [= <- _].
  - rewrite find_group_cons.
    destruct (data_store s) as [st|] eqn:Hst; [| done].
    destruct (Storage.objects st !! gid) as [l|] eqn:Hl; [| done].
    destruct (heap s !! l) as [[| |y]|] eqn:Hy; try done.
    case_decide as Hname.
    + exfalso. eapply (Hno st gid l y); eauto. by left.
    + apply IH. intros st' gid' l' y' ? Hin. eapply Hno; eauto. by right.
Qed.

Lemma find_group_last name pre gid post grp s st g y r s' :
  data_store s = Some st →
  Storage.objects st !! gid = Some g → heap s !! g = Some (EGroup y) →
  TrialGroup.name y = name →
  unmatched s name post →
  find_group name (pre ++ gid :: post) grp s = (Returned r, s') → r = Some g.
Proof.
  intros Hst Hg Hy Hname Hpost. revert grp.
  induction pre as [|gid' pre IH]; intros grp; cbn [app].
  - rewrite find_group_cons, Hst, Hg, Hy. rewrite decide_True by done.
    by apply find_group_unmatched.
  - rewrite find_group_cons, Hst.
    destruct (Storage.objects st !! gid') as [l|]; [| done].
    destruct (heap s !! l) as [[| |y']|]; try done. apply IH.
Qed.

Lemma find_group_missing name pre gid post grp s st :
  data_store s = Some st →
  Forall (λ gid', ∃ l y, Storage.objects st !! gid' = Some l
                         ∧ heap s !! l = Some (EGroup y)) pre →
  Storage.objects st !! gid = None →
  find_group name (pre ++ gid :: post) grp s = (Raised (KeyError gid), s).
Proof.
  intros Hst Hpre Hgid. revert grp.
  induction Hpre as [|gid' pre (l & y & Hl & Hy) _ IH]; intros grp; cbn [app].
  - by rewrite find_group_cons, Hst, Hgid.
  - rewrite find_group_cons, Hst, Hl, Hy. apply IH.
Qed.

(** X1. When no group of the project carries the name, a successful
    [set_group] settles on the group it was passed, whose own name is
    neither compared with [name] nor changed; passed none, it returns an
    object that did not exist. *)
Theorem set_group_falls_back_on_argument grp name tags description s g s' lp x :
  set_group grp name tags description s = (Returned g, s') →
  project s = Some lp → heap s !! lp = Some (EProject x) →
  unmatched s name (Project.groups x) →
  match grp with
  | Some g0 =>
      g = g0 ∧ ∃ y y', heap s !! g0 = Some (EGroup y)
                       ∧ heap s' !! g0 = Some (EGroup y')
                       ∧ TrialGroup.name y' = TrialGroup.name y
  | None => heap s !! g = None
  end.
Proof.
  intros H Hlp Hx Hno.
  destruct (set_group_effect _ _ _ _ _ _ _ H)
    as (_ & _ & _ & _ & _ & _ & _ & _ & _ & _ & _ & _ & _ & Hnames & _).
  apply set_group_inv in H
    as (lp0 & x0 & found & s1 & gr & y0 & Hlp0 & Hx0 & Hfound & Hs1 & _ & Hgr & _).
  rewrite Hlp in Hlp0. injection Hlp0 as <-.
  rewrite Hx in Hx0. injection Hx0 as <-.
  apply find_group_unmatched in Hfound as ->; [| done].
  destruct grp as [g0|].
  - destruct Hs1 as [-> ->]. split; [done |].
    destruct (Hnames _ _ Hgr) as (y' & Hy' & Hn). by exists gr, y'.
  - destruct Hs1 as [-> _]. apply fresh_not_allocated.
Qed.

(** X2. When several groups of the project carry the name, a successful
    [set_group] settles on the last of them in iteration order, whatever
    group it was passed. *)
Theorem set_group_last_match_wins grp name tags description s g s' lp x st
    pre gid post g1 y :
  set_group grp name tags description s = (Returned g, s') →
  project s = Some lp → heap s !! lp = Some (EProject x) →
  data_store s = Some st →
  Project.groups x = (pre ++ gid :: post)%list →
  Storage.objects st !! gid = Some g1 → heap s !! g1 = Some (EGroup y) →
  TrialGroup.name y = name →
  unmatched s name post →
  g = g1.
Proof.
  intros H Hlp Hx Hst Hgroups Hg1 Hy Hname Hpost.
  apply set_group_inv in H
    as (lp0 & x0 & found & s1 & gr & y0 & Hlp0 & Hx0 & Hfound & Hs1 & _).
  rewrite Hlp in Hlp0. injection Hlp0 as <-.
  rewrite Hx in Hx0. injection Hx0 as <-.
  rewrite Hgroups in Hfound.
  assert (found = Some g1) as Hf by (eapply find_group_last; eauto).
  subst found. by destruct Hs1 as [-> _].
Qed.

(** X3. A group id of the project that the storage's table does not hold
    makes [set_group] raise [KeyError] with that id, all ids before it being
    held; nothing has changed by then. *)
Theorem set_group_missing_group_id grp name tags description s lp x st pre gid post :
  project s = Some lp → heap s !! lp = Some (EProject x) →
  data_store s = Some st →
  Project.groups x = (pre ++ gid :: post)%list →
  Forall (λ gid', ∃ l y, Storage.objects st !! gid' = Some l
                         ∧ heap s !! l = Some (EGroup y)) pre →
  Storage.objects st !! gid = None →
  set_group grp name tags description s = (Raised (KeyError gid), s).
Proof.
  intros Hlp Hx Hst Hgroups Hpre Hgid. unfold set_group.
  erewrite bind_returned; [| unfold the_project, bind, gets; by rewrite Hlp].
  erewrite bind_returned; [| by apply read_project_run].
  erewrite bind_raised; [done |].
  rewrite Hgroups. by eapply find_group_missing.
Qed.

(** X4. A successful [set_group] writes to the group it returns and to the
    trial, and to no other object; project, storage and trial reference stay.
    Afterwards the client's group and the logger's are the returned group and
    the trial's [group_id] is that group's uid, its other fields being what
    they were. *)
Theorem set_group_touches_group_and_trial grp name tags description s g s' :
  set_group grp name tags description s = (Returned g, s') →
  project s' = project s ∧ data_store s' = data_store s ∧ trial s' = trial s
  ∧ current_project s' = current_project s
  ∧ group s' = Some g ∧ logger_group (logger s') = Some g
  ∧ (∀ l, l ≠ g → l ≠ trial s → heap s' !! l = heap s !! l)
  ∧ ∃ y gr', heap s !! trial s = Some (ETrial y)
             ∧ heap s' !! g = Some (EGroup gr')
             ∧ heap s' !! trial s
               = Some (ETrial (Trial.set_group_id (TrialGroup.uid gr') y)).
Proof.
  intros (lp & x & found & s1 & gr & y & Hlp & Hx & Hfound & Hs1 & Hx1 & Hgr & Hy
          & Hgt & Hgp & ->)%set_group_inv.
  assert (project s1 = project s ∧ data_store s1 = data_store s ∧ trial s1 = trial s
          ∧ current_project s1 = current_project s
          ∧ (∀ l, l ≠ g → heap s1 !! l = heap s !! l))
    as (Hp1 & Hd1 & Ht1 & Hc1 & Hframe).
  { destruct found as [g'|]; [by destruct Hs1 as [_ ->] |].
    destruct Hs1 as [_ ->]. simpl. split_and!; try done.
    intros l Hl. by rewrite lookup_insert_ne. }
  simpl. split_and!; try done.
  - intros l Hlg Hlt. rewrite !lookup_insert_ne by done. by apply Hframe.
  - exists y. eexists. split_and!.
    + rewrite <- Hframe; [done |]. by intros Heq.
    + by rewrite lookup_insert_eq.
    + by rewrite lookup_insert_ne, lookup_insert_eq.
Qed.

End GroupFacts.

Section StoreFacts.

Context {Value : Type}.

Implicit Types (s : State Value) (l g p : loc) (name : option string).

(** With a storage in place and no [force], [set_store] is the reading of the
    name and nothing else, whatever [load_storage] is. *)
Lemma set_store_skips L store name s :
  is_Some (data_store s) →
  set_store L store name false s =
    match store_name name s with
    | (Returned _, _) => (Returned (), s)
    | (Raised e, _) => (Raised e, s)
    end.
Proof.
  intros [st Hst]. unfold set_store, bind.
  pose proof (store_name_state name s) as Hs.
  destruct (store_name name s) as [[avail|e] s0]; simpl in Hs; subst s0; [| done].
  unfold gets. by rewrite Hst.
Qed.

Lemma bind_same_start {A B} (m1 m2 : M Value A) (k : A → M Value B) s :
  m1 s = m2 s → bind m1 k s = bind m2 k s.
Proof. unfold bind. by intros ->. Qed.

Lemma occurs_length pat u :
  PyStr.occurs pat u → (String.length pat ≤ String.length u)%nat.
Proof.
  intros (a & b & ->). rewrite !PyStrFacts.length_app. lia.
Qed.

(** X5. The first storage stays: once a [set_store] has returned, a later
    [set_store] without [force] changes nothing, whatever store string, name
    or loader it is given. *)
Theorem set_store_first_store_stays L store name force s u s1 :
  set_store L store name force s = (Returned u, s1) →
  is_Some (data_store s1)
  ∧ ∀ L' store' name', snd (set_store L' store' name' false s1) = s1.
Proof.
  intros [_ Hsome]%set_store_returned. split; [done |].
  intros L' store' name'. rewrite set_store_skips by done.
  by destruct (store_name name' s1) as [[]].
Qed.

(** X6. A store string in which the placeholder does not occur is handed to
    [load_storage] as it is, also when a name is available. *)
Theorem set_store_without_placeholder L store name force s avail :
  data_store s = None ∨ force = true →
  store_name name s = (Returned avail, s) →
  ¬ PyStr.occurs placeholder store →
  set_store L store name force s = assign_data_store L store s.
Proof.
  intros Hgate Hname Hno. rewrite (set_store_run _ _ _ _ _ _ Hname).
  assert (store_target store avail = store) as ->.
  { destruct avail as [n|]; [| done]. simpl.
    by apply PyStrFacts.replace_absent. }
  destruct Hgate as [-> | ->]; [done |]. by rewrite orb_true_r.
Qed.

(** X7. With the default protocol [file://${project}.json] the storage of a
    project named [n] is loaded from [file://n.json], whatever characters
    [n] is made of. *)
Theorem set_store_default_protocol L n force s :
  data_store s = None ∨ force = true →
  set_store L "file://${project}.json" (Some n) force s =
    assign_data_store L ("file://" +:+ n +:+ ".json") s.
Proof.
  intros Hgate.
  pose proof (store_name_cases (Some n) s) as Hname. simpl in Hname.
  rewrite (set_store_run _ _ _ _ _ _ Hname).
  assert (store_target "file://${project}.json" (Some n)
          = "file://" +:+ n +:+ ".json") as ->.
  { apply (PyStrFacts.replace_join placeholder n ["file://"; ".json"]).
    - apply placeholder_head_unique.
    - repeat constructor; intros Ho%occurs_length; simpl in Ho; lia. }
  destruct Hgate as [-> | ->]; [done |]. by rewrite orb_true_r.
Qed.

(** X8. Once the client has a storage, [set_project] never loads another:
    its outcome is the same under any two loaders, for every project,
    name, tags and description, so projects of other names go to the
    storage of the first. *)
Theorem set_project_never_reloads L1 L2 prj name tags description s :
  is_Some (data_store s) →
  set_project L1 prj name tags description s
  = set_project L2 prj name tags description s.
Proof.
  intros Hst. unfold set_project.
  rewrite (bind_returned (gets storage_protocol) _ s (storage_protocol s) s eq_refl).
  rewrite (bind_returned (gets storage_protocol) _ s (storage_protocol s) s eq_refl).
  apply bind_same_start. by rewrite !set_store_skips.
Qed.

End StoreFacts.

Section ProjectFacts.

Context {Value : Type}.
Variable load_storage : string → gmap loc entity → outcome Storage.t * gmap loc entity.

Implicit Types (s : State Value) (l g p : loc) (name : option string).

(** X9. A name the index maps to an id the table does not hold makes
    [set_project] raise the [AssertionError] of its consistency check, also
    when a project is passed along; nothing has changed by then. *)
Theorem set_project_index_without_object prj n tags description s st project_id :
  data_store s = Some st →
  Storage.project_names st !! n = Some project_id →
  Storage.objects st !! project_id = None →
  set_project load_storage prj (Some n) tags description s =
    (Raised (AssertionError
       ("Project (id: " +:+ pretty project_id +:+
        ") was found in index but missing in the data table")), s).
Proof.
  intros Hst Hn Ho. unfold set_project.
  erewrite bind_returned; [| reflexivity].
  erewrite bind_returned.
  2:{ rewrite set_store_skips by (by eexists). reflexivity. }
  erewrite bind_raised; [done |].
  erewrite bind_returned; [| by apply the_data_store_run]. rewrite Hn.
  erewrite bind_returned; [| by apply the_data_store_run]. by rewrite Ho.
Qed.

(** X10. A project passed to [set_project] with no name, or with a name the
    index does not know, is taken as it is: it becomes the client's project
    and gives the trial its uid, but is not inserted; the name index is what
    it was and the table gains the trial only. *)
Theorem set_project_supplied_not_inserted q name tags description s st avail x y :
  data_store s = Some st →
  store_name name s = (Returned avail, s) →
  heap s !! q = Some (EProject x) →
  heap s !! trial s = Some (ETrial y) →
  (∀ n, name = Some n → Storage.project_names st !! n = None) →
  ∃ s1 st1 y1,
    set_project load_storage (Some q) name tags description s = (Returned q, s1)
    ∧ project s1 = Some q
    ∧ heap s1 !! q = Some (EProject x)
    ∧ heap s1 !! trial s = Some (ETrial y1)
    ∧ Trial.project_id y1 = Project.uid x
    ∧ data_store s1 = Some st1
    ∧ Storage.project_names st1 = Storage.project_names st
    ∧ Storage.objects st1 = <[Storage.new_uid st := trial s]> (Storage.objects st).
Proof.
  intros Hst Hname Hx Hy Hnew.
  assert (trial s ≠ q) as Hne by (intros Heq; rewrite Heq, Hx in Hy; done).
  destruct (Storage.insert_trial (trial s)
              (<[trial s := ETrial (Trial.set_project_id (Project.uid x) y)]> (heap s)) st)
    as [[h' st']|] eqn:Hins;
    [| unfold Storage.insert_trial in Hins; by rewrite lookup_insert_eq in Hins].
  pose proof Hins as Hins'.
  apply insert_trial_inv in Hins' as (y' & Hy' & -> & Hnames & Hobjs).
  rewrite lookup_insert_eq in Hy'. injection Hy' as <-.
  eexists _, st', _. split_and!.
  - unfold set_project.
    erewrite bind_returned; [| reflexivity].
    erewrite bind_returned.
    2:{ rewrite set_store_skips by (by eexists). rewrite Hname. reflexivity. }
    erewrite bind_returned.
    2:{ destruct name as [n|]; [| reflexivity].
        erewrite bind_returned; [| by apply the_data_store_run].
        rewrite (Hnew n eq_refl). reflexivity. }
    erewrite bind_returned; [| reflexivity].
    erewrite bind_returned; [| by apply read_project_run].
    erewrite bind_returned; [| reflexivity].
    erewrite bind_returned; [| by apply update_trial_run].
    erewrite bind_returned; [| reflexivity].
    erewrite bind_returned; [| reflexivity].
    erewrite bind_returned; [| reflexivity].
    erewrite bind_returned; [| reflexivity].
    erewrite bind_returned; [| by eapply lift_storage_run].
    reflexivity.
  - done.
  - simpl. by rewrite !lookup_insert_ne.
  - simpl. by rewrite lookup_insert_eq.
  - done.
  - done.
  - done.
  - done.
Qed.

(** X11. After a successful [set_project], whatever it was passed, the
    project it returned is the client's, the current one and the logger's,
    and the trial's [project_id] is that project's uid. *)
Theorem set_project_links_trial prj name tags description s p s1 :
  set_project load_storage prj name tags description s = (Returned p, s1) →
  project s1 = Some p ∧ current_project s1 = Some p
  ∧ logger_project (logger s1) = Some p
  ∧ ∃ x y, heap s1 !! p = Some (EProject x)
           ∧ heap s1 !! trial s1 = Some (ETrial y)
           ∧ Trial.project_id y = Project.uid x.
Proof.
  unfold set_project. intros H.
  apply bind_inv in H as (protocol & s0 & [= <- <-] & H).
  apply bind_inv in H as ([] & sa & Hstore & H).
  apply bind_inv in H as (found & sb & Hfound & H).
  apply bind_inv in H as (p0 & sc & Hp0 & H).
  apply bind_inv in H as (x & s0 & [-> Hx]%read_project_inv & H).
  apply bind_inv in H as (t & s0 & [= <- <-] & H).
  apply bind_inv in H as ([] & sd & (y & Hy & ->)%update_trial_inv & H).
  apply bind_inv in H as ([] & s0 & [= <-] & H).
  apply bind_inv in H as ([] & s0 & [= <-] & H).
  apply bind_inv in H as ([] & s0 & [= <-] & H).
  apply bind_inv in H as (t & s0 & [= <- <-] & H).
  apply bind_inv in H as ([] & se & (st & h' & st' & Hst & Hins & ->)%lift_storage_inv & H).
  injection H as <- <-. simpl in *.
  apply insert_trial_inv in Hins as (y' & Hy' & -> & Hnames & Hobjs).
  rewrite lookup_insert_eq in Hy'. injection Hy' as <-.
  assert (trial sc ≠ p0) as Hne by (intros Heq; rewrite Heq, Hx in Hy; done).
  split_and!; try done.
  exists x. eexists. split_and!.
  - by rewrite !lookup_insert_ne.
  - by rewrite lookup_insert_eq.
  - done.
Qed.

(** A project [set_project] had to create: it is a new object with the name,
    the tags and the description passed, a uid, and no group. *)
Lemma set_project_created n tags description s st p s1 :
  data_store s = Some st →
  Storage.project_names st !! n = None →
  set_project load_storage None (Some n) tags description s = (Returned p, s1) →
  heap s !! p = None
  ∧ heap s1 !! p
    = Some (EProject (Project.mk (Some (Storage.new_uid st)) (Some n) tags description []))
  ∧ project s1 = Some p
  ∧ ∃ y, heap s1 !! trial s1 = Some (ETrial y).
Proof.
  intros Hst Hn. unfold set_project. intros H.
  apply bind_inv in H as (protocol & s0 & [= <- <-] & H).
  apply bind_inv in H as ([] & sa & Hstore & H).
  rewrite set_store_skips in Hstore by (by eexists).
  pose proof (store_name_cases (Some n) s) as Hname. simpl in Hname.
  rewrite Hname in Hstore. injection Hstore as <-.
  apply bind_inv in H as (found & sb & Hfound & H).
  erewrite bind_returned in Hfound; [| by apply the_data_store_run].
  rewrite Hn in Hfound. injection Hfound as <- <-.
  apply bind_inv in H as (p0 & sc & Hp0 & H).
  apply bind_inv in Hp0 as (p1 & s0 & [= <- <-] & Hp0).
  apply bind_inv in Hp0
    as ([] & s0 & (st1 & h1 & st1' & Hst1 & Hins & ->)%lift_storage_inv & Hp0).
  injection Hp0 as <- <-. simpl in *.
  apply insert_project_inv in Hins as (x0 & Hx0 & -> & _ & _).
  rewrite lookup_insert_eq in Hx0. injection Hx0 as <-.
  rewrite Hst in Hst1. injection Hst1 as <-.
  apply bind_inv in H as (x & s0 & [-> Hx]%read_project_inv & H).
  apply bind_inv in H as (t & s0 & [= <- <-] & H).
  apply bind_inv in H as ([] & sd & (y & Hy & ->)%update_trial_inv & H).
  apply bind_inv in H as ([] & s0 & [= <-] & H).
  apply bind_inv in H as ([] & s0 & [= <-] & H).
  apply bind_inv in H as ([] & s0 & [= <-] & H).
  apply bind_inv in H as (t & s0 & [= <- <-] & H).
  apply bind_inv in H as ([] & se & (st2 & h' & st' & Hst2 & Hins & ->)%lift_storage_inv & H).
  injection H as <- <-. simpl in *.
  apply insert_trial_inv in Hins as (y' & Hy' & -> & _ & _).
  set (p0 := fresh (dom (heap s))) in *.
  assert (trial s ≠ p0) as Hne.
  { intros Heq. rewrite Heq, lookup_insert_eq in Hy. done. }
  split_and!.
  - apply fresh_not_allocated.
  - rewrite !lookup_insert_ne by done. by rewrite lookup_insert_eq.
  - done.
  - eexists. by rewrite lookup_insert_eq.
Qed.

(** With a project that has no group of the name and a trial, [set_group]
    passed no group goes through and makes one. *)
Lemma set_group_creates_run name tags description s lp x y :
  project s = Some lp → heap s !! lp = Some (EProject x) →
  find_group name (Project.groups x) None s = (Returned None, s) →
  heap s !! trial s = Some (ETrial y) →
  ∃ g s', set_group None name tags description s = (Returned g, s')
          ∧ heap s !! g = None.
Proof.
  intros Hlp Hx Hfound Hy.
  pose proof (fresh_not_allocated (heap s)) as Hfresh.
  set (g := fresh (dom (heap s))) in *.
  assert (g ≠ trial s) as Hgt by (intros Heq; rewrite Heq, Hy in Hfresh; done).
  assert (g ≠ lp) as Hgp by (intros Heq; rewrite Heq, Hx in Hfresh; done).
  exists g. eexists. split; [| done]. unfold set_group.
  erewrite bind_returned; [| unfold the_project, bind, gets; by rewrite Hlp].
  erewrite bind_returned; [| by apply read_project_run].
  erewrite bind_returned; [| exact Hfound].
  erewrite bind_returned; [| reflexivity].
  erewrite bind_returned;
    [| apply read_project_run; simpl; by rewrite lookup_insert_ne].
  erewrite bind_returned;
    [| apply update_group_run; simpl; by rewrite lookup_insert_eq].
  erewrite bind_returned; [| apply read_group_run; simpl; by rewrite lookup_insert_eq].
  erewrite bind_returned; [| reflexivity].
  erewrite bind_returned;
    [| apply update_trial_run; simpl; by rewrite !lookup_insert_ne].
  erewrite bind_returned; [| reflexivity].
  erewrite bind_returned; [| reflexivity].
  erewrite bind_returned; [| apply read_trial_run; simpl; by rewrite lookup_insert_eq].
  erewrite bind_returned;
    [| apply update_group_run; simpl;
       by rewrite lookup_insert_ne, lookup_insert_eq].
  erewrite bind_returned; [| reflexivity].
  reflexivity.
Qed.

(** X12. On a project that [set_project] has just created, [set_group]
    passed no group always goes through: it returns a new group whose trial
    list is the trial's uid and nothing else. *)
Theorem set_group_on_new_project n tags description s st p s1 :
  data_store s = Some st →
  Storage.project_names st !! n = None →
  set_project load_storage None (Some n) tags description s = (Returned p, s1) →
  ∀ gname gtags gdescription,
    ∃ g s2,
      set_group None gname gtags gdescription s1 = (Returned g, s2)
      ∧ heap s1 !! g = None
      ∧ group_trials s2 g = [trial_uid s1].
Proof.
  intros Hst Hn H gname gtags gdescription.
  destruct (set_project_created _ _ _ _ _ _ _ Hst Hn H) as (_ & Hp & Hproj & y & Hy).
  destruct (set_group_creates_run gname gtags gdescription s1 p _ y Hproj Hp eq_refl Hy)
    as (g & s2 & Hg & Hnew).
  exists g, s2. split_and!; [done | done |].
  destruct (set_group_effect _ _ _ _ _ _ _ Hg)
    as (lpa & xa & ya & _ & _ & Hya & _ & _ & _ & _ & _ & _
        & (gr' & Hgr' & _ & Htr & _) & _).
  unfold group_trials at 1. rewrite Hgr', Htr.
  unfold group_trials, trial_uid. by rewrite Hnew, Hya.
Qed.

End ProjectFacts.

Section InitFacts.

Context {Value : Type}.
Variables NoLogLogger CMLLogger : PyObject Value.
Variable Logger_attrs : gmap string Value.
Variable default_version_hash : M Value string.

Implicit Types (s : State Value) (h : gmap loc entity).

(** The client [__init__] builds when the version hash only computes. *)
Lemma init_state backend_name storage h cp v :
  (∀ s0, default_version_hash s0 = (Returned v, s0)) →
  __init__ NoLogLogger CMLLogger Logger_attrs default_version_hash
    backend_name storage h cp =
  (Returned (),
   {| heap := <[fresh (dom h) := ETrial (Trial.mk None None None (Some v))]> h;
      project := None; group := None; trial := fresh (dom h);
      logger_backend := backend_name; storage_protocol := storage;
      logger := {| logger_trial := fresh (dom h);
                   backend := build_logger NoLogLogger CMLLogger backend_name;
                   logger_attrs := Logger_attrs;
                   logger_project := None; logger_group := None |};
      data_store := None; current_project := cp;
      current_trial := Some (fresh (dom h)) |}).
Proof.
  intros Hv. unfold __init__.
  erewrite bind_returned.
  2:{ unfold set_version. simpl. erewrite bind_returned; [| apply Hv].
      erewrite bind_returned; [| reflexivity].
      apply update_trial_run. simpl. by rewrite lookup_insert_eq. }
  unfold modify, with_data_store, with_heap. simpl.
  by rewrite insert_insert_eq.
Qed.

(** X13. A client comes out of the constructor with no project, no group
    and no storage; its trial is a new object that carries the default
    version hash and no ids, the objects there were are untouched, and the
    logger is built on that trial and on the backend [build_logger] gives. *)
Theorem init_fresh_client backend_name storage h cp v :
  (∀ s0, default_version_hash s0 = (Returned v, s0)) →
  ∃ s,
    __init__ NoLogLogger CMLLogger Logger_attrs default_version_hash
      backend_name storage h cp = (Returned (), s)
    ∧ project s = None ∧ group s = None ∧ data_store s = None
    ∧ h !! trial s = None
    ∧ heap s !! trial s = Some (ETrial (Trial.mk None None None (Some v)))
    ∧ (∀ l, l ≠ trial s → heap s !! l = h !! l)
    ∧ storage_protocol s = storage
    ∧ current_trial s = Some (trial s)
    ∧ logger_trial (logger s) = trial s
    ∧ backend (logger s) = build_logger NoLogLogger CMLLogger backend_name.
Proof.
  intros Hv. eexists. split; [by apply init_state |]. simpl.
  split_and!; try done.
  - apply fresh_not_allocated.
  - by rewrite lookup_insert_eq.
  - intros l Hl. by rewrite lookup_insert_ne.
Qed.

(** X14. Straight after construction neither [save] nor [set_group] can
    work: [save] raises [AttributeError], there being no storage to commit,
    and [set_group] raises its [RuntimeError]; the client stays as built. *)
Theorem fresh_client_needs_project commit backend_name storage h cp v s :
  (∀ s0, default_version_hash s0 = (Returned v, s0)) →
  __init__ NoLogLogger CMLLogger Logger_attrs default_version_hash
    backend_name storage h cp = (Returned (), s) →
  (∀ file_name_override,
     save commit file_name_override s = (Raised (AttributeError "commit"), s))
  ∧ (∀ grp name tags description,
       set_group grp name tags description s =
         (Raised (RuntimeError "Project needs to be set to define a group"), s)).
Proof.
  intros Hv Hinit. rewrite (init_state _ _ _ _ _ Hv) in Hinit.
  injection Hinit as <-. split; done.
Qed.

(** X15. Every backend name but [comet_ml], misspelt ones included, gives
    the client the backend [NoLogLogger] and raises nothing: an attribute
    that neither the client nor the logger has is then [NoLogLogger]'s, or
    the access raises [AttributeError]. *)
Theorem unknown_backend_is_no_log object_getattribute backend_name storage h cp v s item :
  (∀ s0, default_version_hash s0 = (Returned v, s0)) →
  __init__ NoLogLogger CMLLogger Logger_attrs default_version_hash
    backend_name storage h cp = (Returned (), s) →
  backend_name ≠ "comet_ml" →
  object_getattribute s item = None →
  Logger_attrs !! item = None →
  backend (logger s) = NoLogLogger
  ∧ getattr object_getattribute item s =
      match attrs NoLogLogger !! item with
      | Some a => (Returned a, s)
      | None => (Raised (AttributeError item), s)
      end.
Proof.
  intros Hv Hinit Hname Hown Hlog. rewrite (init_state _ _ _ _ _ Hv) in Hinit.
  injection Hinit as <-.
  assert (build_logger NoLogLogger CMLLogger backend_name = NoLogLogger) as Hb.
  { unfold build_logger. by rewrite decide_False. }
  split; [done |].
  unfold getattr, bind, gets, __getattr__, bind, gets. rewrite Hown. simpl.
  rewrite Hlog, Hb. by destruct (attrs NoLogLogger !! item).
Qed.

End InitFacts.

Section OutputFacts.

Context {File : Type}.
Variable RingOutputDecorator : loc → N → File.
Variable options : string → N → N.

Implicit Types (io : Streams File).

Local Abbreviation capture := (capture_output RingOutputDecorator options).

Lemma fresh_not_allocated_files (fs : gmap loc File) : fs !! fresh (dom fs) = None.
Proof. apply not_elem_of_dom, is_fresh. Qed.

Lemma capture_shared io f :
  sys_stderr io = sys_stdout io →
  files io !! sys_stdout io = Some f →
  sys_stderr (capture io) = sys_stderr io
  ∧ files (capture io) !! sys_stderr (capture io) = Some f
  ∧ stderr (capture io) = stderr io
  ∧ stdout (capture io) = Some (sys_stdout (capture io))
  ∧ files (capture io) !! sys_stdout (capture io)
    = Some (RingOutputDecorator (sys_stdout io) (options "log.stdout_capture" 50))
  ∧ sys_stdout (capture io) ≠ sys_stderr (capture io).
Proof.
  intros Hsame Hf. unfold capture_output.
  rewrite bool_decide_eq_false_2 by (by intros []). simpl.
  pose proof (fresh_not_allocated_files (files io)) as Hfresh.
  assert (fresh (dom (files io)) ≠ sys_stdout io) as Hne
    by (intros Heq; rewrite Heq, Hf in Hfresh; done).
  rewrite Hsame. split_and!; try done.
  - by rewrite lookup_insert_ne.
  - by rewrite lookup_insert_eq.
Qed.

Lemma capture_distinct io f1 f2 :
  sys_stderr io ≠ sys_stdout io →
  files io !! sys_stdout io = Some f1 →
  files io !! sys_stderr io = Some f2 →
  files (capture io) !! sys_stdout (capture io)
    = Some (RingOutputDecorator (sys_stdout io) (options "log.stdout_capture" 50))
  ∧ files (capture io) !! sys_stderr (capture io)
    = Some (RingOutputDecorator (sys_stderr io) (options "log.stderr_capture" 50))
  ∧ stdout (capture io) = Some (sys_stdout (capture io))
  ∧ stderr (capture io) = Some (sys_stderr (capture io))
  ∧ sys_stdout (capture io) ≠ sys_stderr (capture io)
  ∧ files (capture io) !! sys_stdout io = Some f1
  ∧ files (capture io) !! sys_stderr io = Some f2.
Proof.
  intros Hdiff Hf1 Hf2. unfold capture_output.
  rewrite bool_decide_eq_true_2 by done. simpl.
  pose proof (fresh_not_allocated_files (files io)) as Hout.
  set (out := fresh (dom (files io))) in *.
  set (fs := <[out := _]> (files io)).
  pose proof (fresh_not_allocated_files fs) as Herr.
  set (err := fresh (dom fs)) in *.
  assert (out ≠ sys_stdout io) by (intros Heq; rewrite Heq, Hf1 in Hout; done).
  assert (out ≠ sys_stderr io) by (intros Heq; rewrite Heq, Hf2 in Hout; done).
  assert (err ≠ out) by (intros Heq; unfold fs in Herr; by rewrite Heq, lookup_insert_eq in Herr).
  assert (err ≠ sys_stdout io)
    by (intros Heq; unfold fs in Herr; by rewrite Heq, lookup_insert_ne, Hf1 in Herr).
  assert (err ≠ sys_stderr io)
    by (intros Heq; unfold fs in Herr; by rewrite Heq, lookup_insert_ne, Hf2 in Herr).
  unfold fs. split_and!; try done.
  - by rewrite lookup_insert_ne, lookup_insert_eq.
  - by rewrite lookup_insert_eq.
  - by rewrite !lookup_insert_ne.
  - by rewrite !lookup_insert_ne.
Qed.

(** X16. When [sys.stderr] is the object [sys.stdout] is, [capture_output]
    decorates [sys.stdout] only: [sys.stderr] stays the undecorated stream,
    the client's [stderr] field stays what it was, and the two streams are
    two objects afterwards. *)
Theorem capture_output_shared_stream io f :
  sys_stderr io = sys_stdout io →
  files io !! sys_stdout io = Some f →
  sys_stderr (capture io) = sys_stderr io
  ∧ files (capture io) !! sys_stderr (capture io) = Some f
  ∧ stderr (capture io) = stderr io
  ∧ stdout (capture io) = Some (sys_stdout (capture io))
  ∧ files (capture io) !! sys_stdout (capture io)
    = Some (RingOutputDecorator (sys_stdout io) (options "log.stdout_capture" 50))
  ∧ sys_stdout (capture io) ≠ sys_stderr (capture io).
Proof. apply capture_shared. Qed.

(** X17. When [sys.stderr] and [sys.stdout] are two objects,
    [capture_output] gives each a decorator of its own around it, keeps both
    decorators in the client, and leaves the two streams themselves as they
    were. *)
Theorem capture_output_two_streams io f1 f2 :
  sys_stderr io ≠ sys_stdout io →
  files io !! sys_stdout io = Some f1 →
  files io !! sys_stderr io = Some f2 →
  files (capture io) !! sys_stdout (capture io)
    = Some (RingOutputDecorator (sys_stdout io) (options "log.stdout_capture" 50))
  ∧ files (capture io) !! sys_stderr (capture io)
    = Some (RingOutputDecorator (sys_stderr io) (options "log.stderr_capture" 50))
  ∧ stdout (capture io) = Some (sys_stdout (capture io))
  ∧ stderr (capture io) = Some (sys_stderr (capture io))
  ∧ sys_stdout (capture io) ≠ sys_stderr (capture io)
  ∧ files (capture io) !! sys_stdout io = Some f1
  ∧ files (capture io) !! sys_stderr io = Some f2.
Proof. apply capture_distinct. Qed.

(** X18. Calling [capture_output] a second time decorates the decorator:
    [sys.stdout] is then a decorator around the first call's, which is
    around the stream.  Starting from one shared stream, it is this second
    call that decorates [sys.stderr], directly around the stream. *)
Theorem capture_output_twice_shared_stream io f :
  sys_stderr io = sys_stdout io →
  files io !! sys_stdout io = Some f →
  files (capture (capture io)) !! sys_stdout (capture (capture io))
    = Some (RingOutputDecorator (sys_stdout (capture io))
              (options "log.stdout_capture" 50))
  ∧ files (capture (capture io)) !! sys_stdout (capture io)
    = Some (RingOutputDecorator (sys_stdout io) (options "log.stdout_capture" 50))
  ∧ files (capture (capture io)) !! sys_stderr (capture (capture io))
    = Some (RingOutputDecorator (sys_stdout io) (options "log.stderr_capture" 50))
  ∧ stderr (capture (capture io)) = Some (sys_stderr (capture (capture io)))
  ∧ files (capture (capture io)) !! sys_stdout io = Some f.
Proof.
  intros Hsame Hf.
  destruct (capture_shared io f Hsame Hf) as (He & Hfe & _ & _ & Hfo & Hne).
  destruct (capture_distinct (capture io) _ _ (not_eq_sym Hne) Hfo Hfe)
    as (Ho2 & He2 & _ & Hs2 & _ & Hkeep1 & Hkeep2).
  rewrite He, Hsame in He2, Hkeep2. split_and!; done.
Qed.

End OutputFacts.

(** ** The further facts at concrete clients *)

Lemma set_group_falls_back_on_argument_witness :
  set_group (Some 3%positive) (Some "other") None None Example.grouped_client
    = (Returned 3%positive,
       snd (set_group (Some 3%positive) (Some "other") None None Example.grouped_client))
  ∧ ∃ y y',
      heap Example.grouped_client !! 3%positive = Some (EGroup y)
      ∧ heap (snd (set_group (Some 3%positive) (Some "other") None None
                     Example.grouped_client)) !! 3%positive = Some (EGroup y')
      ∧ TrialGroup.name y' = TrialGroup.name y.
Proof.
  split; [vm_compute; reflexivity |].
  apply (set_group_falls_back_on_argument (Some 3%positive) (Some "other") None None
           Example.grouped_client 3%positive
           (snd (set_group (Some 3%positive) (Some "other") None None
                   Example.grouped_client))
           2%positive (Project.mk (Some 0%N) (Some "mnist") None None [1%N])).
  - vm_compute; reflexivity.
  - reflexivity.
  - vm_compute; reflexivity.
  - intros st gid l y Hst Hin Hl Hy.
    vm_compute in Hst. injection Hst as <-.
    apply list_elem_of_singleton in Hin as ->.
    vm_compute in Hl. injection Hl as <-.
    vm_compute in Hy. injection Hy as <-. discriminate.
Defined.

Lemma set_group_last_match_wins_witness :
  set_group None (Some "sweep") None None Example2.twin_client
    = (Returned 4%positive,
       snd (set_group None (Some "sweep") None None Example2.twin_client))
  ∧ 4%positive = 4%positive.
Proof.
  split; [vm_compute; reflexivity |].
  apply (set_group_last_match_wins None (Some "sweep") None None
           Example2.twin_client 4%positive
           (snd (set_group None (Some "sweep") None None Example2.twin_client))
           2%positive
           (Project.mk (Some 0%N) (Some "mnist") None None [1%N; 3%N; 4%N])
           (Storage.mk {[ "mnist" := 0%N ]}
              {[ 0%N := 2%positive; 1%N := 3%positive; 2%N := 1%positive;
                 3%N := 4%positive; 4%N := 5%positive ]})
           [1%N] 3%N [4%N] 4%positive
           (TrialGroup.mk (Some 3%N) (Some "sweep") None None [] (Some 0%N)));
    try (vm_compute; reflexivity).
  intros st gid l y Hst Hin Hl Hy.
  vm_compute in Hst. injection Hst as <-.
  apply list_elem_of_singleton in Hin as ->.
  vm_compute in Hl. injection Hl as <-.
  vm_compute in Hy. injection Hy as <-. discriminate.
Defined.

Lemma set_group_missing_group_id_witness :
  Storage.objects (Storage.mk {[ "mnist" := 0%N ]} {[ 0%N := 2%positive ]}) !! 1%N = None
  ∧ set_group None (Some "sweep") None None Example2.missing_group_client
    = (Raised (KeyError 1%N), Example2.missing_group_client).
Proof.
  split; [vm_compute; reflexivity |].
  apply (set_group_missing_group_id None (Some "sweep") None None
           Example2.missing_group_client 2%positive
           (Project.mk (Some 0%N) (Some "mnist") None None [1%N])
           (Storage.mk {[ "mnist" := 0%N ]} {[ 0%N := 2%positive ]})
           [] 1%N []);
    try (vm_compute; reflexivity).
  constructor.
Defined.

Lemma set_group_touches_group_and_trial_witness :
  set_group None (Some "sweep") None None Example.grouped_client
    = (Returned 3%positive,
       snd (set_group None (Some "sweep") None None Example.grouped_client))
  ∧ data_store (snd (set_group None (Some "sweep") None None Example.grouped_client))
    = data_store Example.grouped_client
  ∧ heap (snd (set_group None (Some "sweep") None None Example.grouped_client))
      !! 2%positive
    = heap Example.grouped_client !! 2%positive.
Proof.
  destruct (set_group_touches_group_and_trial None (Some "sweep") None None
              Example.grouped_client 3%positive
              (snd (set_group None (Some "sweep") None None Example.grouped_client)))
    as (_ & Hd & _ & _ & _ & _ & Hframe & _); [vm_compute; reflexivity |].
  split_and!; [vm_compute; reflexivity | exact Hd |].
  apply Hframe; discriminate.
Defined.

Lemma set_store_first_store_stays_witness :
  set_store Example.load_storage "file://${project}.json" (Some "mnist") false
    Example.fresh_client
    = (Returned (),
       snd (set_store Example.load_storage "file://${project}.json" (Some "mnist")
              false Example.fresh_client))
  ∧ snd (set_store Example.load_storage "file://other.json" (Some "cifar") false
           (snd (set_store Example.load_storage "file://${project}.json"
                   (Some "mnist") false Example.fresh_client)))
    = snd (set_store Example.load_storage "file://${project}.json" (Some "mnist")
             false Example.fresh_client).
Proof.
  split; [vm_compute; reflexivity |].
  eapply (set_store_first_store_stays Example.load_storage "file://${project}.json"
            (Some "mnist") false Example.fresh_client).
  vm_compute; reflexivity.
Defined.

Lemma set_store_without_placeholder_witness :
  data_store Example.fresh_client = None
  ∧ set_store Example.load_storage "db.json" (Some "mnist") false Example.fresh_client
    = assign_data_store Example.load_storage "db.json" Example.fresh_client.
Proof.
  split; [vm_compute; reflexivity |].
  apply (set_store_without_placeholder Example.load_storage "db.json" (Some "mnist")
           false Example.fresh_client (Some "mnist")).
  - left. vm_compute; reflexivity.
  - vm_compute; reflexivity.
  - intros (a & b & Hab).
    assert (String.length "db.json" = String.length (a +:+ placeholder +:+ b)) as Hl
      by (by rewrite <- Hab).
    rewrite !PyStrFacts.length_app in Hl. simpl in Hl. lia.
Defined.

Lemma set_store_default_protocol_witness :
  data_store Example.fresh_client = None
  ∧ set_store Example.load_storage "file://${project}.json" (Some "mnist") false
      Example.fresh_client
    = assign_data_store Example.load_storage "file://mnist.json" Example.fresh_client.
Proof.
  split; [vm_compute; reflexivity |].
  apply (set_store_default_protocol Example.load_storage "mnist" false
           Example.fresh_client).
  left. vm_compute; reflexivity.
Defined.

Lemma set_project_never_reloads_witness :
  is_Some (data_store Example.project_client)
  ∧ set_project Example.load_storage None (Some "cifar") None None
      Example.project_client
    = set_project (λ _ h, (Raised (OSError "no such store"), h)) None (Some "cifar")
        None None Example.project_client.
Proof.
  assert (is_Some (data_store Example.project_client)) as H
    by (vm_compute; by eexists).
  split; [exact H |].
  by apply set_project_never_reloads.
Defined.

Lemma set_project_index_without_object_witness :
  Storage.project_names (Storage.mk {[ "ghost" := 9%N ]} ∅) !! "ghost" = Some 9%N
  ∧ set_project Example.load_storage None (Some "ghost") None None
      Example2.dangling_client
    = (Raised (AssertionError
         ("Project (id: " +:+ pretty 9%N +:+
          ") was found in index but missing in the data table")),
       Example2.dangling_client).
Proof.
  split; [vm_compute; reflexivity |].
  apply (set_project_index_without_object Example.load_storage None "ghost" None None
           Example2.dangling_client (Storage.mk {[ "ghost" := 9%N ]} ∅) 9%N);
    vm_compute; reflexivity.
Defined.

Lemma set_project_supplied_not_inserted_witness :
  heap Example.project_client !! 2%positive
    = Some (EProject (Project.mk (Some 0%N) (Some "mnist") None None []))
  ∧ ∃ s1 st1 y1,
      set_project Example.load_storage (Some 2%positive) None None None
        Example.project_client = (Returned 2%positive, s1)
      ∧ project s1 = Some 2%positive
      ∧ heap s1 !! 2%positive
        = Some (EProject (Project.mk (Some 0%N) (Some "mnist") None None []))
      ∧ heap s1 !! trial Example.project_client = Some (ETrial y1)
      ∧ Trial.project_id y1 = Some 0%N
      ∧ data_store s1 = Some st1
      ∧ Storage.project_names st1 = {[ "mnist" := 0%N ]}.
Proof.
  split; [vm_compute; reflexivity |].
  destruct (set_project_supplied_not_inserted Example.load_storage 2%positive None
              None None Example.project_client
              (Storage.mk {[ "mnist" := 0%N ]} {[ 0%N := 2%positive; 1%N := 1%positive ]})
              (Some "mnist")
              (Project.mk (Some 0%N) (Some "mnist") None None [])
              (Trial.mk (Some 1%N) (Some 0%N) None (Some "5d41402a")))
    as (s1 & st1 & y1 & H1 & H2 & H3 & H4 & H5 & H6 & H7 & _);
    try (vm_compute; reflexivity); [done |].
  exists s1, st1, y1. split_and!; done.
Defined.

Lemma set_project_links_trial_witness :
  set_project Example.load_storage None (Some "mnist") None None Example.fresh_client
    = (Returned 2%positive, Example.project_client)
  ∧ project Example.project_client = Some 2%positive
  ∧ ∃ x y, heap Example.project_client !! 2%positive = Some (EProject x)
           ∧ heap Example.project_client !! trial Example.project_client
             = Some (ETrial y)
           ∧ Trial.project_id y = Project.uid x.
Proof.
  destruct (set_project_links_trial Example.load_storage None (Some "mnist") None None
              Example.fresh_client 2%positive Example.project_client)
    as (Hp & _ & _ & Hxy); [vm_compute; reflexivity |].
  split_and!; [vm_compute; reflexivity | exact Hp | exact Hxy].
Defined.

Lemma set_group_on_new_project_witness :
  Storage.project_names
    (Storage.mk {[ "mnist" := 0%N ]} {[ 0%N := 2%positive; 1%N := 1%positive ]})
    !! "cifar" = None
  ∧ ∃ g s2,
      set_group None (Some "sweep") None None
        (snd (set_project Example.load_storage None (Some "cifar") None None
                Example.project_client)) = (Returned g, s2)
      ∧ heap (snd (set_project Example.load_storage None (Some "cifar") None None
                     Example.project_client)) !! g = None
      ∧ group_trials s2 g
        = [trial_uid (snd (set_project Example.load_storage None (Some "cifar") None
                             None Example.project_client))].
Proof.
  split; [vm_compute; reflexivity |].
  apply (set_group_on_new_project Example.load_storage "cifar" None None
           Example.project_client
           (Storage.mk {[ "mnist" := 0%N ]} {[ 0%N := 2%positive; 1%N := 1%positive ]})
           3%positive);
    vm_compute; reflexivity.
Defined.

Lemma init_fresh_client_witness :
  ∃ s,
    __init__ Example.NoLogLogger Example.CMLLogger Example.Logger_attrs
      Example.default_version_hash "none" "file://${project}.json" ∅ None
      = (Returned (), s)
    ∧ project s = None ∧ group s = None ∧ data_store s = None
    ∧ (∅ : gmap loc entity) !! trial s = None
    ∧ heap s !! trial s = Some (ETrial (Trial.mk None None None (Some "5d41402a")))
    ∧ (∀ l, l ≠ trial s → heap s !! l = (∅ : gmap loc entity) !! l)
    ∧ storage_protocol s = "file://${project}.json"
    ∧ current_trial s = Some (trial s)
    ∧ logger_trial (logger s) = trial s
    ∧ backend (logger s)
      = build_logger Example.NoLogLogger Example.CMLLogger "none".
Proof.
  apply (init_fresh_client Example.NoLogLogger Example.CMLLogger Example.Logger_attrs
           Example.default_version_hash "none" "file://${project}.json" ∅ None
           "5d41402a").
  intros s0. reflexivity.
Defined.

Lemma fresh_client_needs_project_witness :
  save Example2.commit None Example.fresh_client
    = (Raised (AttributeError "commit"), Example.fresh_client)
  ∧ set_group None (Some "sweep") None None Example.fresh_client
    = (Raised (RuntimeError "Project needs to be set to define a group"),
       Example.fresh_client).
Proof.
  destruct (fresh_client_needs_project Example.NoLogLogger Example.CMLLogger
              Example.Logger_attrs Example.default_version_hash Example2.commit
              "none" "file://${project}.json" ∅ None "5d41402a" Example.fresh_client)
    as [Hsave Hgroup]; [by intros s0 | vm_compute; reflexivity |].
  split; [apply Hsave | apply Hgroup].
Defined.

Lemma unknown_backend_is_no_log_witness :
  "cometml" ≠ "comet_ml"
  ∧ getattr Example.object_getattribute "log_metrics"
      (snd (__init__ Example.NoLogLogger Example.CMLLogger Example.Logger_attrs
              Example.default_version_hash "cometml" "file://${project}.json" ∅ None))
    = (Returned "NoLogLogger.log_metrics",
       snd (__init__ Example.NoLogLogger Example.CMLLogger Example.Logger_attrs
              Example.default_version_hash "cometml" "file://${project}.json" ∅ None)).
Proof.
  split; [discriminate |].
  destruct (unknown_backend_is_no_log Example.NoLogLogger Example.CMLLogger
              Example.Logger_attrs Example.default_version_hash
              Example.object_getattribute "cometml" "file://${project}.json" ∅ None
              "5d41402a"
              (snd (__init__ Example.NoLogLogger Example.CMLLogger Example.Logger_attrs
                      Example.default_version_hash "cometml" "file://${project}.json"
                      ∅ None))
              "log_metrics") as [_ H];
    [by intros s0 | vm_compute; reflexivity | discriminate
    | vm_compute; reflexivity | vm_compute; reflexivity |].
  exact H.
Defined.

Lemma capture_output_shared_stream_witness :
  sys_stderr (capture_output Example2.Ring Example2.options Example2.one_stream)
    = 1%positive
  ∧ files (capture_output Example2.Ring Example2.options Example2.one_stream)
      !! 1%positive = Some Example2.Tty
  ∧ stderr (capture_output Example2.Ring Example2.options Example2.one_stream) = None.
Proof.
  destruct (capture_output_shared_stream Example2.Ring Example2.options
              Example2.one_stream Example2.Tty)
    as (H1 & H2 & H3 & _); [reflexivity | vm_compute; reflexivity |].
  split_and!; [exact H1 | exact H2 | exact H3].
Defined.

Lemma capture_output_two_streams_witness :
  files (capture_output Example2.Ring Example2.options Example2.two_streams)
    !! sys_stdout (capture_output Example2.Ring Example2.options Example2.two_streams)
    = Some (Example2.Ring 1%positive 50%N)
  ∧ files (capture_output Example2.Ring Example2.options Example2.two_streams)
      !! sys_stderr (capture_output Example2.Ring Example2.options Example2.two_streams)
    = Some (Example2.Ring 2%positive 50%N).
Proof.
  destruct (capture_output_two_streams Example2.Ring Example2.options
              Example2.two_streams Example2.Tty Example2.Tty)
    as (H1 & H2 & _); [discriminate | vm_compute; reflexivity | vm_compute; reflexivity |].
  split; [exact H1 | exact H2].
Defined.

Lemma capture_output_twice_shared_stream_witness :
  files (capture_output Example2.Ring Example2.options
           (capture_output Example2.Ring Example2.options Example2.one_stream))
    !! sys_stderr (capture_output Example2.Ring Example2.options
                     (capture_output Example2.Ring Example2.options Example2.one_stream))
  = Some (Example2.Ring 1%positive 50%N).
Proof.
  destruct (capture_output_twice_shared_stream Example2.Ring Example2.options
              Example2.one_stream Example2.Tty)
    as (_ & _ & H & _); [reflexivity | vm_compute; reflexivity |].
  exact H.
Defined.
